(** * gomatch: pattern based JSON matching

    A shallow embedding of the Go package [gomatch] (json_matcher.go,
    chain_matcher.go and the value matchers) and the properties of its
    deep-match engine.

    Conventions of the embedding:
    - a decoded JSON document is the tree [json.Unmarshal] stores into an
      [interface{}]: nil, bool, float64, string, []interface{} and
      map[string]interface{};
    - a Go map is an association list with pairwise distinct keys.  The
      order of the list stands for the order in which [range] visits the
      entries, which Go leaves unspecified: statements quantify over the
      list, hence over every visiting order;
    - a Go [error] is its message; a nil error is [None];
    - the methods of a [ValueMatcher] are functions of their arguments, as
      those of the matchers of the package are;
    - a run time panic (failed type assertion, index out of range,
      comparison of uncomparable values) is the outcome [Panic]. *)

From Stdlib Require Import List String Ascii ZArith Bool Lia Floats DecimalString.
From Stdlib Require Import Permutation.
Import ListNotations.
Open Scope string_scope.

(** ** Decoded JSON values *)

Unset Elimination Schemes.
Inductive Value : Type :=
| VNil
| VBool (b : bool)
| VFloat64 (f : float)
| VString (s : string)
| VSlice (xs : list Value)
| VMap (kvs : list (string * Value)).
Set Elimination Schemes.

(** Induction over the tree, with the hypotheses for the elements of a
    slice and for the values of a map. *)
Section ValueInduction.
Variable P : Value -> Prop.
Hypothesis Hnil : P VNil.
Hypothesis Hbool : forall b, P (VBool b).
Hypothesis Hfloat : forall f, P (VFloat64 f).
Hypothesis Hstring : forall s, P (VString s).
Hypothesis Hslice : forall xs, Forall P xs -> P (VSlice xs).
Hypothesis Hmap : forall kvs, Forall (fun kv => P (snd kv)) kvs -> P (VMap kvs).

Fixpoint Value_tree_ind (v : Value) : P v :=
  match v with
  | VNil => Hnil
  | VBool b => Hbool b
  | VFloat64 f => Hfloat f
  | VString s => Hstring s
  | VSlice xs =>
      Hslice xs
        ((fix elems (l : list Value) : Forall P l :=
            match l with
            | [] => Forall_nil P
            | x :: l' => Forall_cons x (Value_tree_ind x) (elems l')
            end) xs)
  | VMap kvs =>
      Hmap kvs
        ((fix entries (l : list (string * Value)) : Forall (fun kv => P (snd kv)) l :=
            match l with
            | [] => Forall_nil _
            | kv :: l' =>
                Forall_cons (P := fun kv => P (snd kv)) kv
                  (match kv return P (snd kv) with (_, x) => Value_tree_ind x end)
                  (entries l')
            end) kvs)
  end.
End ValueInduction.

(** [reflect.TypeOf] restricted to decoded JSON values. *)
Inductive GoType : Type := TNil | TBool | TFloat64 | TString | TSlice | TMap.

Definition TypeOf (v : Value) : GoType :=
  match v with
  | VNil => TNil
  | VBool _ => TBool
  | VFloat64 _ => TFloat64
  | VString _ => TString
  | VSlice _ => TSlice
  | VMap _ => TMap
  end.

Definition GoType_eqb (a b : GoType) : bool :=
  match a, b with
  | TNil, TNil | TBool, TBool | TFloat64, TFloat64
  | TString, TString | TSlice, TSlice | TMap, TMap => true
  | _, _ => false
  end.

(** [actual[k]] with the comma-ok form, and [len] of a map. *)
Fixpoint mapIndex (k : string) (m : list (string * Value)) : option Value :=
  match m with
  | [] => None
  | (k', v) :: m' => if String.eqb k k' then Some v else mapIndex k m'
  end.

Fixpoint distinct (ks : list string) : bool :=
  match ks with
  | [] => true
  | k :: ks' => negb (existsb (String.eqb k) ks') && distinct ks'
  end.

(** What [json.Unmarshal] can produce: finite numbers (never NaN) and maps
    whose keys are pairwise distinct. *)
Fixpoint decoded (v : Value) : bool :=
  match v with
  | VFloat64 f => negb (PrimFloat.is_nan f)
  | VSlice xs => forallb decoded xs
  | VMap kvs =>
      distinct (map fst kvs) && forallb (fun kv => decoded (snd kv)) kvs
  | _ => true
  end.


(** ** Errors, outcomes and paths *)

Definition error := string.

Definition errInvalidJSON : error := "invalid JSON".
Definition errInvalidJSONPattern : error := "invalid JSON pattern".
Definition errTypesNotEqual : error := "types are not equal".
Definition errValuesNotEqual : error := "values are not equal".
Definition errArraysLenNotEqual : error := "arrays sizes are not equal".
Definition errUnexpectedKey : error := "unexpected key".
Definition errMatcherNotFound : error := "none of matchers could be used".

(** [fmt.Errorf(`expected key "%s"`, k)] *)
Definition quoted (s : string) : string :=
  String "034"%char (s ++ String "034"%char "").

Definition errExpectedKey (k : string) : error := "expected key " ++ quoted k.

Definition patternString := "@string@".
Definition patternNumber := "@number@".
Definition patternBool := "@bool@".
Definition patternArray := "@array@".
Definition patternUUID := "@uuid@".
Definition patternEmail := "@email@".
Definition patternWildcard := "@wildcard@".
Definition patternUnbounded := "@...@".

Inductive outcome (A : Type) : Type :=
| Return (a : A)
| Panic.
Arguments Return {A} a.
Arguments Panic {A}.

(** An element of the [[]interface{}] path: an [int] or a [string]. *)
Inductive Segment : Type :=
| SegInt (i : Z)
| SegString (k : string).

Definition Path := list Segment.

(** The pair [([]interface{}, error)] returned by the engine's methods. *)
Definition MatchResult := outcome (Path * option error).

Definition isPattern (p : Value) (pattern : string) : bool :=
  match p with
  | VString ps => String.eqb ps pattern
  | _ => false
  end.

Definition isUnbounded (p : Value) : bool := isPattern p patternUnbounded.
Arguments isUnbounded : simpl never.

(** ** The ValueMatcher interface and its implementations *)

Module ValueMatcher.
Record t : Type := Build {
  CanMatch : Value -> bool;
  Match : Value -> Value -> bool * option error
}.
End ValueMatcher.

Module WildcardMatcher.
Definition CanMatch (pattern : string) (p : Value) : bool := isPattern p pattern.
Definition Match (pattern : string) (p v : Value) : bool * option error := (true, None).
Definition New (pattern : string) : ValueMatcher.t :=
  ValueMatcher.Build (CanMatch pattern) (Match pattern).
End WildcardMatcher.

Module NumberMatcher.
Definition errNotNumber : error := "expected number".
Definition CanMatch (pattern : string) (p : Value) : bool := isPattern p pattern.
Definition Match (pattern : string) (p v : Value) : bool * option error :=
  match v with
  | VFloat64 _ => (true, None)
  | _ => (false, Some errNotNumber)
  end.
Definition New (pattern : string) : ValueMatcher.t :=
  ValueMatcher.Build (CanMatch pattern) (Match pattern).
End NumberMatcher.

Module BoolMatcher.
Definition errNotBool : error := "expected bool".
Definition CanMatch (pattern : string) (p : Value) : bool := isPattern p pattern.
Definition Match (pattern : string) (p v : Value) : bool * option error :=
  match v with
  | VBool _ => (true, None)
  | _ => (false, Some errNotBool)
  end.
Definition New (pattern : string) : ValueMatcher.t :=
  ValueMatcher.Build (CanMatch pattern) (Match pattern).
End BoolMatcher.

Module StringMatcher.
Definition errNotString : error := "expected string".
Definition CanMatch (pattern : string) (p : Value) : bool := isPattern p pattern.
Definition Match (pattern : string) (p v : Value) : bool * option error :=
  match v with
  | VString _ => (true, None)
  | _ => (false, Some errNotString)
  end.
Definition New (pattern : string) : ValueMatcher.t :=
  ValueMatcher.Build (CanMatch pattern) (Match pattern).
End StringMatcher.

Module ArrayMatcher.
Definition errNotArray : error := "expected array".
Definition CanMatch (pattern : string) (p : Value) : bool := isPattern p pattern.
Definition Match (pattern : string) (p v : Value) : bool * option error :=
  match v with
  | VSlice _ => (true, None)
  | _ => (false, Some errNotArray)
  end.
Definition New (pattern : string) : ValueMatcher.t :=
  ValueMatcher.Build (CanMatch pattern) (Match pattern).
End ArrayMatcher.

(** The UUID matcher, over [uuid.Parse] of github.com/google/uuid:
    [Parse s] is [true] when [uuid.Parse(s)] returns a nil error. *)
Module UUIDMatcher.
Section Parser.
Variable Parse : string -> bool.
Definition errNotUUID : error := "expected UUID".
Definition CanMatch (pattern : string) (p : Value) : bool := isPattern p pattern.
Definition Match (pattern : string) (p v : Value) : bool * option error :=
  match v with
  | VString s => if Parse s then (true, None) else (false, Some errNotUUID)
  | _ => (false, Some errNotUUID)
  end.
Definition New (pattern : string) : ValueMatcher.t :=
  ValueMatcher.Build (CanMatch pattern) (Match pattern).
End Parser.
End UUIDMatcher.

(** The email matcher, over the compiled regular expression [emailRe]:
    [MatchString s] is [emailRe.MatchString(s)]. *)
Module EmailMatcher.
Section Regexp.
Variable MatchString : string -> bool.
Definition errNotEmail : error := "expected email".
Definition CanMatch (pattern : string) (p : Value) : bool := isPattern p pattern.
Definition Match (pattern : string) (p v : Value) : bool * option error :=
  match v with
  | VString s => if MatchString s then (true, None) else (false, Some errNotEmail)
  | _ => (false, Some errNotEmail)
  end.
Definition New (pattern : string) : ValueMatcher.t :=
  ValueMatcher.Build (CanMatch pattern) (Match pattern).
End Regexp.
End EmailMatcher.

Module ChainMatcher.
Fixpoint CanMatch (matchers : list ValueMatcher.t) (p : Value) : bool :=
  match matchers with
  | [] => false
  | m :: rest => if ValueMatcher.CanMatch m p then true else CanMatch rest p
  end.

Fixpoint Match (matchers : list ValueMatcher.t) (p v : Value) : bool * option error :=
  match matchers with
  | [] => (false, Some errMatcherNotFound)
  | m :: rest =>
      if negb (ValueMatcher.CanMatch m p) then Match rest p v
      else ValueMatcher.Match m p v
  end.

Definition New (matchers : list ValueMatcher.t) : ValueMatcher.t :=
  ValueMatcher.Build (CanMatch matchers) (Match matchers).
End ChainMatcher.

(** ** The deep-match engine *)

(** [expected != actual] on two interface values: values of different
    dynamic types differ, values of the same comparable type are compared,
    and comparing two slices or two maps is a run time error. *)
Definition ifaceEq (x y : Value) : outcome bool :=
  match x, y with
  | VNil, VNil => Return true
  | VBool a, VBool b => Return (Bool.eqb a b)
  | VFloat64 a, VFloat64 b => Return (PrimFloat.eqb a b)
  | VString a, VString b => Return (String.eqb a b)
  | VSlice _, VSlice _ => Panic
  | VMap _, VMap _ => Panic
  | _, _ => Return false
  end.

(** [ifaceEq] where it cannot panic. *)
Definition ifaceEqb (x y : Value) : bool :=
  match ifaceEq x y with
  | Return b => b
  | Panic => false
  end.

(** A result that is a success: a nil error. *)
Definition succeeded (r : MatchResult) : bool :=
  match r with
  | Return (_, None) => true
  | _ => false
  end.

(** How a [for ... range] loop whose body may [return] is left. *)
Inductive LoopExit : Type :=
| LoopDone (unbounded : bool)
| LoopReturn (r : MatchResult).

(** One turn of the loop of [pathToString] on the buffer [b]. *)
Definition writeSegment (b : string) (v : Segment) : string :=
  match v with
  | SegInt i => b ++ "[" ++ NilZero.string_of_int (Z.to_int i) ++ "]"
  | SegString k => (if Nat.ltb 0 (String.length b) then b ++ "." else b) ++ k
  end.

(** The loop runs from [len(path) - 1] down to [0]. *)
Definition pathToString (path : Path) : string :=
  fold_left writeSegment (rev path) "".

Module JSONMatcher.
Record t : Type := Build { valueMatcher : ValueMatcher.t }.

Definition matchValue (m : t) (expected actual : Value) : MatchResult :=
  if ValueMatcher.CanMatch (valueMatcher m) expected then
    Return ([], snd (ValueMatcher.Match (valueMatcher m) expected actual))
  else
    match ifaceEq expected actual with
    | Panic => Panic
    | Return false => Return ([], Some errValuesNotEqual)
    | Return true => Return ([], None)
    end.

(** The bodies of [deepMatchArray] and [deepMatchMap], over the recursive
    call [m.deepMatch] they make. *)
Section Containers.
Variable deepMatch : Value -> Value -> MatchResult.

(** The loop of [deepMatchArray] from index [i] on; [rest] holds
    [expected[i:]]. *)
Fixpoint arrayLoop (actual : list Value) (i : nat) (rest : list Value) : LoopExit :=
  match rest with
  | [] => LoopDone false
  | v :: rest' =>
      if isUnbounded v then LoopDone true
      else if Nat.eqb i (List.length actual) then LoopDone false
      else
        match nth_error actual i with
        | None => LoopReturn Panic
        | Some a =>
            match deepMatch v a with
            | Panic => LoopReturn Panic
            | Return (keyPath, Some err) =>
                LoopReturn (Return ((keyPath ++ [SegInt (Z.of_nat i)])%list, Some err))
            | Return (_, None) => arrayLoop actual (S i) rest'
            end
        end
  end.

Definition deepMatchArrayOver (expected actual : list Value) : MatchResult :=
  match arrayLoop actual 0 expected with
  | LoopReturn r => r
  | LoopDone unbounded =>
      if negb unbounded && negb (Nat.eqb (List.length expected) (List.length actual))
      then Return ([], Some errArraysLenNotEqual)
      else Return ([], None)
  end.

(** The loop of [deepMatchMap]; [rest] holds the entries of [expected]
    still to be visited and [unbounded] the flag so far. *)
Fixpoint mapLoop (actual : list (string * Value)) (unbounded : bool)
         (rest : list (string * Value)) : LoopExit :=
  match rest with
  | [] => LoopDone unbounded
  | (k, v1) :: rest' =>
      if isUnbounded (VString k) then mapLoop actual true rest'
      else
        match mapIndex k actual with
        | None => LoopReturn (Return ([], Some (errExpectedKey k)))
        | Some v2 =>
            match deepMatch v1 v2 with
            | Panic => LoopReturn Panic
            | Return (keyPath, Some err) =>
                LoopReturn (Return ((keyPath ++ [SegString k])%list, Some err))
            | Return (_, None) => mapLoop actual unbounded rest'
            end
        end
  end.

Definition deepMatchMapOver (expected actual : list (string * Value)) : MatchResult :=
  match mapLoop actual false expected with
  | LoopReturn r => r
  | LoopDone unbounded =>
      if negb unbounded && negb (Nat.eqb (List.length expected) (List.length actual))
      then Return ([], Some errUnexpectedKey)
      else Return ([], None)
  end.
End Containers.

Fixpoint deepMatch (m : t) (expected actual : Value) {struct expected} : MatchResult :=
  if negb (GoType_eqb (TypeOf expected) (TypeOf actual))
     && negb (ValueMatcher.CanMatch (valueMatcher m) expected)
  then Return ([], Some errTypesNotEqual)
  else
    match expected with
    | VSlice es =>
        match actual with
        | VSlice xs => deepMatchArrayOver (deepMatch m) es xs
        | _ => Panic
        end
    | VMap es =>
        match actual with
        | VMap xs => deepMatchMapOver (deepMatch m) es xs
        | _ => Panic
        end
    | _ => matchValue m expected actual
    end.

Definition deepMatchArray (m : t) : list Value -> list Value -> MatchResult :=
  deepMatchArrayOver (deepMatch m).

Definition deepMatchMap (m : t) :
  list (string * Value) -> list (string * Value) -> MatchResult :=
  deepMatchMapOver (deepMatch m).

(** [Match] over the decoder of encoding/json, which is not part of the
    package: [Unmarshal text] is [None] when [json.Unmarshal] returns an
    error and the decoded tree otherwise. *)
Section Match.
Variable Unmarshal : string -> option Value.

Definition Match (m : t) (expectedJSON actualJSON : string)
  : outcome (bool * option error) :=
  match Unmarshal expectedJSON with
  | None => Return (false, Some errInvalidJSONPattern)
  | Some expected =>
      match Unmarshal actualJSON with
      | None => Return (false, Some errInvalidJSON)
      | Some actual =>
          match deepMatch m expected actual with
          | Panic => Panic
          | Return (path, Some err) =>
              if Nat.ltb 0 (List.length path)
              then Return (false, Some (err ++ " at path: " ++ pathToString path))
              else Return (false, Some err)
          | Return (_, None) => Return (true, None)
          end
      end
  end.
End Match.
End JSONMatcher.

Definition NewJSONMatcher (matcher : ValueMatcher.t) : JSONMatcher.t :=
  JSONMatcher.Build matcher.

(** The matchers of the default chain, in its order. *)
Definition defaultMatchers (uuidParse emailMatchString : string -> bool)
  : list ValueMatcher.t :=
  [ StringMatcher.New patternString;
    NumberMatcher.New patternNumber;
    BoolMatcher.New patternBool;
    ArrayMatcher.New patternArray;
    UUIDMatcher.New uuidParse patternUUID;
    EmailMatcher.New emailMatchString patternEmail;
    WildcardMatcher.New patternWildcard ].

Definition NewDefaultJSONMatcher (uuidParse emailMatchString : string -> bool)
  : JSONMatcher.t :=
  NewJSONMatcher (ChainMatcher.New (defaultMatchers uuidParse emailMatchString)).

(** ** The documents of the package's tests

    A decoder given by a finite table of texts and their trees; a text
    outside the table does not decode. *)
Fixpoint tableUnmarshal (table : list (string * Value)) (text : string) : option Value :=
  match table with
  | [] => None
  | (t, v) :: table' => if String.eqb text t then Some v else tableUnmarshal table' text
  end.

Definition num (z : Z) : Value := VFloat64 (PrimFloat.of_uint63 (Uint63.of_Z z)).

Definition phone (type number : string) : Value :=
  VMap [("type", VString type); ("phone", VString number)].

Definition person (second : string) : Value :=
  VMap [("id", num 123); ("name", VString "John Smith");
        ("phones", VSlice [phone "home" "111-111-111"; phone second "222-222-222"])].

(** Compact JSON text of [person second]. *)
Definition personText (second : string) : string :=
  "{" ++ quoted "id" ++ ":123," ++ quoted "name" ++ ":" ++ quoted "John Smith" ++ ","
  ++ quoted "phones" ++ ":[{" ++ quoted "type" ++ ":" ++ quoted "home" ++ ","
  ++ quoted "phone" ++ ":" ++ quoted "111-111-111" ++ "},{" ++ quoted "type" ++ ":"
  ++ quoted second ++ "," ++ quoted "phone" ++ ":" ++ quoted "222-222-222" ++ "}]}".

Definition testDocuments : list (string * Value) :=
  [ (quoted "John", VString "John");
    (quoted patternString, VString patternString);
    (quoted patternWildcard, VString patternWildcard);
    ("true", VBool true);
    ("null", VNil);
    ("100", num 100);
    ("200", num 200);
    ("[]", VSlice []);
    ("[1,2,3]", VSlice [num 1; num 2; num 3]);
    ("[1,3,2]", VSlice [num 1; num 3; num 2]);
    ("[1,2]", VSlice [num 1; num 2]);
    ("[1]", VSlice [num 1]);
    ("[9,2]", VSlice [num 9; num 2]);
    ("[1,2,3,4]", VSlice [num 1; num 2; num 3; num 4]);
    ("[1,2," ++ quoted patternUnbounded ++ "]",
      VSlice [num 1; num 2; VString patternUnbounded]);
    ("[1,2,3," ++ quoted patternUnbounded ++ "]",
      VSlice [num 1; num 2; num 3; VString patternUnbounded]);
    (personText "work", person "work");
    (personText "mobile", person "mobile") ].

Definition testUnmarshal : string -> option Value := tableUnmarshal testDocuments.

Definition testMatcher : JSONMatcher.t :=
  NewJSONMatcher (WildcardMatcher.New patternWildcard).

(** A custom [ValueMatcher] for the wildcard's pattern whose [Match]
    returns the fixed pair [r], whatever the value. *)
Definition fixedMatcher (r : bool * option error) : ValueMatcher.t :=
  ValueMatcher.Build (fun p => isPattern p patternWildcard) (fun _ _ => r).

(** A custom [ValueMatcher] whose [CanMatch] accepts every pattern. *)
Definition greedyMatcher : ValueMatcher.t :=
  ValueMatcher.Build (fun _ => true) (fun _ _ => (true, None)).

(** A chain of the matchers for numbers, booleans and the wildcard. *)
Definition testChain : list ValueMatcher.t :=
  [ NumberMatcher.New patternNumber;
    BoolMatcher.New patternBool;
    WildcardMatcher.New patternWildcard ].

(** The chain of the package's test of [ChainMatcher]. *)
Definition numberStringChain : list ValueMatcher.t :=
  [ NumberMatcher.New patternNumber; StringMatcher.New patternString ].


(** The object with keys a, b and the unbounded pattern, in two of the
    orders in which [range] may visit it, and an object that has the key a
    with another value and lacks the key b. *)
Definition abUnbounded : list (string * Value) :=
  [ ("a", num 1); ("b", num 2); (patternUnbounded, VString "") ].

Definition baUnbounded : list (string * Value) :=
  [ ("b", num 2); ("a", num 1); (patternUnbounded, VString "") ].

Definition onlyA : list (string * Value) := [ ("a", num 2) ].

(** ** Vocabulary of the statements *)

Import JSONMatcher.

Definition isContainer (v : Value) : bool :=
  match v with
  | VSlice _ | VMap _ => true
  | _ => false
  end.

(** The body of [deepMatch] once the guard on the types has been passed. *)
Definition dispatch (m : JSONMatcher.t) (expected actual : Value) : MatchResult :=
  match expected with
  | VSlice es =>
      match actual with
      | VSlice xs => deepMatchArray m es xs
      | _ => Panic
      end
  | VMap es =>
      match actual with
      | VMap xs => deepMatchMap m es xs
      | _ => Panic
      end
  | _ => matchValue m expected actual
  end.

(** The patterns of the matchers of the package are strings. *)
Definition stringPatterns (vm : ValueMatcher.t) : Prop :=
  forall p, ValueMatcher.CanMatch vm p = true -> TypeOf p = TString.

(** [ChainMatcher.Match] with the value of its last [return], the one
    reached when no matcher recognizes the pattern, left open. *)
Fixpoint chainMatchOr (exhausted : bool * option error)
         (matchers : list ValueMatcher.t) (p v : Value) : bool * option error :=
  match matchers with
  | [] => exhausted
  | m :: rest =>
      if negb (ValueMatcher.CanMatch m p) then chainMatchOr exhausted rest p v
      else ValueMatcher.Match m p v
  end.

(** A matcher that, on a pattern it recognizes, does not itself report
    the exhaustion of a chain. *)
Definition reportsOwnErrors (c : ValueMatcher.t) : Prop :=
  forall p v, ValueMatcher.CanMatch c p = true ->
              snd (ValueMatcher.Match c p v) <> Some errMatcherNotFound.


(** The pairs the loop of [deepMatchArray] compares and passes: no expected
    element is the unbounded pattern and every pair matches. *)
Definition comparedOk (f : Value -> Value -> MatchResult) : list Value -> list Value -> Prop :=
  Forall2 (fun v a => isUnbounded v = false /\ succeeded (f v a) = true).

(** An entry of [expected] that the loop of [deepMatchMap] passes: its key
    is the unbounded pattern, or [actual] has the key with a value that
    matches. *)
Definition entryOk (f : Value -> Value -> MatchResult)
           (actual : list (string * Value)) (kv : string * Value) : Prop :=
  isUnbounded (VString (fst kv)) = true \/
  exists v2, mapIndex (fst kv) actual = Some v2 /\ succeeded (f (snd kv) v2) = true.

Definition hasUnboundedKey (expected : list (string * Value)) : bool :=
  existsb (fun kv => isUnbounded (VString (fst kv))) expected.

(** The boolean and the error returned by [Match] agree: [true] comes with
    a nil error and [false] with an error. *)
Definition agrees (vm : ValueMatcher.t) : Prop :=
  forall p v, fst (ValueMatcher.Match vm p v) = true <->
              snd (ValueMatcher.Match vm p v) = None.

(** The patterns of the default chain. *)
Definition defaultPatterns : list string :=
  [ patternString; patternNumber; patternBool; patternArray;
    patternUUID; patternEmail; patternWildcard ].

(** The errors of the engine that do not depend on the documents, and the
    errors of the matchers of the default chain. *)
Definition engineErrors : list error :=
  [ errTypesNotEqual; errValuesNotEqual; errArraysLenNotEqual; errUnexpectedKey ].

Definition defaultMatcherErrors : list error :=
  [ StringMatcher.errNotString; NumberMatcher.errNotNumber; BoolMatcher.errNotBool;
    ArrayMatcher.errNotArray; UUIDMatcher.errNotUUID; EmailMatcher.errNotEmail ].

(** The value a path leads to in a document, read from the outermost
    segment: an index enters a slice, a key enters a map. *)
Fixpoint follow (segments : list Segment) (v : Value) : option Value :=
  match segments with
  | [] => Some v
  | SegInt i :: rest =>
      match v with
      | VSlice xs =>
          match nth_error xs (Z.to_nat i) with
          | Some x => follow rest x
          | None => None
          end
      | _ => None
      end
  | SegString k :: rest =>
      match v with
      | VMap kvs =>
          match mapIndex k kvs with
          | Some x => follow rest x
          | None => None
          end
      | _ => None
      end
  end.

(** * Properties *)

(** ** Unfolding the engine *)

Lemma GoType_eqb_eq (a b : GoType) : GoType_eqb a b = true <-> a = b.
Proof. destruct a, b; simpl; split; intro H; try reflexivity; discriminate H. Qed.

Lemma GoType_eqb_refl (a : GoType) : GoType_eqb a a = true.
Proof. apply GoType_eqb_eq; reflexivity. Qed.

Lemma GoType_eqb_neq (a b : GoType) : a <> b -> GoType_eqb a b = false.
Proof.
  intro H. destruct (GoType_eqb a b) eqn:E; [| reflexivity].
  apply GoType_eqb_eq in E. contradiction.
Qed.

Lemma deepMatch_unfold (m : JSONMatcher.t) (expected actual : Value) :
  deepMatch m expected actual =
  if negb (GoType_eqb (TypeOf expected) (TypeOf actual))
     && negb (ValueMatcher.CanMatch (valueMatcher m) expected)
  then Return ([], Some errTypesNotEqual)
  else dispatch m expected actual.
Proof. destruct expected; reflexivity. Qed.

Lemma deepMatch_same_type (m : JSONMatcher.t) (expected actual : Value) :
  TypeOf expected = TypeOf actual ->
  deepMatch m expected actual = dispatch m expected actual.
Proof.
  intro H. rewrite deepMatch_unfold, H, GoType_eqb_refl. reflexivity.
Qed.

Lemma deepMatch_recognized (m : JSONMatcher.t) (expected actual : Value) :
  ValueMatcher.CanMatch (valueMatcher m) expected = true ->
  deepMatch m expected actual = dispatch m expected actual.
Proof.
  intro H. rewrite deepMatch_unfold, H, andb_false_r. reflexivity.
Qed.

Lemma dispatch_leaf (m : JSONMatcher.t) (expected actual : Value) :
  isContainer expected = false ->
  dispatch m expected actual = matchValue m expected actual.
Proof. destruct expected; simpl; intro H; try reflexivity; discriminate H. Qed.

(** ** The chain of matchers *)

Lemma chain_CanMatch_exists (ms : list ValueMatcher.t) (p : Value) :
  ChainMatcher.CanMatch ms p = true <->
  exists c, In c ms /\ ValueMatcher.CanMatch c p = true.
Proof.
  induction ms as [| c ms IH]; simpl.
  - split; [discriminate | intros [c [[] _]]].
  - destruct (ValueMatcher.CanMatch c p) eqn:E.
    + split; [| reflexivity]. intros _. exists c. auto.
    + rewrite IH. split; intros [c' [Hin Hc]].
      * exists c'. auto.
      * destruct Hin as [-> | Hin]; [congruence |]. exists c'. auto.
Qed.

Lemma chain_skip_prefix (before rest : list ValueMatcher.t) (p v : Value) :
  (forall b, In b before -> ValueMatcher.CanMatch b p = false) ->
  ChainMatcher.CanMatch (before ++ rest) p = ChainMatcher.CanMatch rest p /\
  ChainMatcher.Match (before ++ rest) p v = ChainMatcher.Match rest p v.
Proof.
  induction before as [| b before IH]; simpl; intro H; [auto |].
  rewrite (H b (or_introl eq_refl)). simpl. apply IH. intros; apply H; auto.
Qed.

(** C7: [ChainMatcher.CanMatch] holds exactly when some constituent
    recognizes the pattern; [ChainMatcher.Match] returns, unchanged, the
    result of the first constituent in configured order that recognizes
    it, whatever follows that constituent; and when no constituent
    recognizes it the result is [false] with the error "none of matchers
    could be used". *)
Theorem chain_matcher_first_recognizer (ms : list ValueMatcher.t) (p v : Value) :
  (ChainMatcher.CanMatch ms p = true <->
   exists c, In c ms /\ ValueMatcher.CanMatch c p = true) /\
  (forall before c after,
      ms = (before ++ c :: after)%list ->
      (forall b, In b before -> ValueMatcher.CanMatch b p = false) ->
      ValueMatcher.CanMatch c p = true ->
      ChainMatcher.CanMatch ms p = true /\
      ChainMatcher.Match ms p v = ValueMatcher.Match c p v) /\
  ((forall c, In c ms -> ValueMatcher.CanMatch c p = false) ->
   ChainMatcher.CanMatch ms p = false /\
   ChainMatcher.Match ms p v = (false, Some errMatcherNotFound)).
Proof.
  split; [apply chain_CanMatch_exists |]. split.
  - intros before c after -> Hbefore Hc.
    destruct (chain_skip_prefix before (c :: after) p v Hbefore) as [-> ->].
    simpl. rewrite Hc. auto.
  - intro Hnone.
    destruct (chain_skip_prefix ms [] p v Hnone) as [Hc Hm].
    rewrite app_nil_r in Hc, Hm. rewrite Hc, Hm. auto.
Qed.

Lemma chain_matcher_first_recognizer_witness :
  (ChainMatcher.CanMatch numberStringChain (VString patternString) = true /\
   ChainMatcher.Match numberStringChain (VString patternString) (VString "some string")
   = (true, None)) /\
  (ChainMatcher.CanMatch numberStringChain (VString patternBool) = false /\
   ChainMatcher.Match numberStringChain (VString patternBool) (VBool true)
   = (false, Some errMatcherNotFound)).
Proof.
  split.
  - refine (proj1 (proj2 (chain_matcher_first_recognizer numberStringChain
                            (VString patternString) (VString "some string")))
              [NumberMatcher.New patternNumber] (StringMatcher.New patternString)
              [] eq_refl _ eq_refl).
    intros b [<- | []]. reflexivity.
  - apply (proj2 (proj2 (chain_matcher_first_recognizer numberStringChain
                           (VString patternBool) (VBool true)))).
    intros c [<- | [<- | []]]; reflexivity.
Defined.

(** ** Decoding failures *)

(** C6: [Match] decodes the expected text first.  When it does not decode
    the result is failure with exactly "invalid JSON pattern", whether or
    not the actual text decodes; when it decodes and the actual text does
    not, the result is failure with exactly "invalid JSON".  Neither result
    depends on the configured matcher, and neither carries a path. *)
Theorem match_decode_failure
  (Unmarshal : string -> option Value) (m : JSONMatcher.t)
  (expectedJSON actualJSON : string) :
  (Unmarshal expectedJSON = None ->
   JSONMatcher.Match Unmarshal m expectedJSON actualJSON
   = Return (false, Some errInvalidJSONPattern)) /\
  (Unmarshal expectedJSON <> None -> Unmarshal actualJSON = None ->
   JSONMatcher.Match Unmarshal m expectedJSON actualJSON
   = Return (false, Some errInvalidJSON)) /\
  (Unmarshal expectedJSON = None \/ Unmarshal actualJSON = None ->
   forall m', JSONMatcher.Match Unmarshal m' expectedJSON actualJSON
              = JSONMatcher.Match Unmarshal m expectedJSON actualJSON).
Proof.
  unfold JSONMatcher.Match. repeat split.
  - intros ->. reflexivity.
  - intros He Ha. destruct (Unmarshal expectedJSON); [| contradiction].
    rewrite Ha. reflexivity.
  - intros [He | Ha] m'.
    + rewrite He. reflexivity.
    + rewrite Ha. destruct (Unmarshal expectedJSON); reflexivity.
Qed.

Lemma match_decode_failure_witness :
  JSONMatcher.Match testUnmarshal testMatcher "{" "}" = Return (false, Some errInvalidJSONPattern) /\
  JSONMatcher.Match testUnmarshal testMatcher "[1,2,3]" "}" = Return (false, Some errInvalidJSON).
Proof.
  split.
  - apply (proj1 (match_decode_failure testUnmarshal testMatcher "{" "}")).
    reflexivity.
  - apply (proj1 (proj2 (match_decode_failure testUnmarshal testMatcher "[1,2,3]" "}")));
      [discriminate | reflexivity].
Defined.

(** ** The guard on the types *)

(** C3 (amended): when the types of [expected] and [actual] differ and the matcher
    does not recognize [expected], [deepMatch] returns "types are not
    equal" with an empty path.  When the matcher recognizes [expected] the
    guard is passed: for an [expected] that is no slice and no map the
    result is the error of the matcher's [Match], with an empty path (so a
    nil error is a success despite the different types); for a slice or a
    map the type assertion on [actual] panics. *)
Theorem deepMatch_types_guard (m : JSONMatcher.t) (expected actual : Value) :
  TypeOf expected <> TypeOf actual ->
  (ValueMatcher.CanMatch (valueMatcher m) expected = false ->
   deepMatch m expected actual = Return ([], Some errTypesNotEqual)) /\
  (ValueMatcher.CanMatch (valueMatcher m) expected = true ->
   deepMatch m expected actual =
   if isContainer expected then Panic
   else Return ([], snd (ValueMatcher.Match (valueMatcher m) expected actual))).
Proof.
  intro Hty. split; intro Hc.
  - rewrite deepMatch_unfold, Hc, (GoType_eqb_neq _ _ Hty). reflexivity.
  - rewrite (deepMatch_recognized _ _ _ Hc).
    destruct expected; simpl; unfold matchValue; rewrite ?Hc; try reflexivity;
      destruct actual; simpl in Hty; try reflexivity; contradiction.
Qed.

Lemma deepMatch_types_guard_witness :
  deepMatch testMatcher (VString "John") (VBool true)
  = Return ([], Some errTypesNotEqual) /\
  deepMatch testMatcher (VString patternWildcard) (num 123) = Return ([], None).
Proof.
  split.
  - apply (deepMatch_types_guard testMatcher (VString "John") (VBool true));
      [discriminate | reflexivity].
  - apply (proj2 (deepMatch_types_guard testMatcher (VString patternWildcard) (num 123)
                    ltac:(discriminate))).
    reflexivity.
Defined.

(** C3 as stated fails: the matcher that recognizes every value
    recognizes the array [[1]], whose type differs from that of the number
    100; the comparison then neither fails with an error nor succeeds, it
    panics at the type assertion, and so does [Match]. *)
Lemma recognized_container_counterexample :
  ValueMatcher.CanMatch greedyMatcher (VSlice [num 1]) = true /\
  TypeOf (VSlice [num 1]) <> TypeOf (num 100) /\
  deepMatch (NewJSONMatcher greedyMatcher) (VSlice [num 1]) (num 100) = Panic /\
  JSONMatcher.Match testUnmarshal (NewJSONMatcher greedyMatcher) "[1]" "100" = Panic /\
  ~ (forall m expected actual,
        TypeOf expected <> TypeOf actual ->
        ValueMatcher.CanMatch (valueMatcher m) expected = true ->
        exists path err, deepMatch m expected actual = Return (path, err)).
Proof.
  repeat split; try reflexivity.
  - simpl. discriminate.
  - intro H.
    destruct (H (NewJSONMatcher greedyMatcher) (VSlice [num 1]) (num 100)
                ltac:(simpl; discriminate) eq_refl) as [path [err Hr]].
    discriminate Hr.
Qed.

(** ** The scalar step *)

Lemma matchValue_recognized (m : JSONMatcher.t) (expected actual : Value) :
  ValueMatcher.CanMatch (valueMatcher m) expected = true ->
  matchValue m expected actual
  = Return ([], snd (ValueMatcher.Match (valueMatcher m) expected actual)).
Proof. intro H. unfold matchValue. rewrite H. reflexivity. Qed.

Lemma arrayLoop_ext (f g : Value -> Value -> MatchResult) (actual rest : list Value) :
  Forall (fun v => forall a, f v a = g v a) rest ->
  forall i, arrayLoop f actual i rest = arrayLoop g actual i rest.
Proof.
  induction 1 as [| v rest Hv _ IH]; intro i; simpl; [reflexivity |].
  destruct (isUnbounded v); [reflexivity |].
  destruct (Nat.eqb i (List.length actual)); [reflexivity |].
  destruct (nth_error actual i) as [a |]; [| reflexivity].
  rewrite Hv. destruct (g v a) as [[keyPath [err |]] |]; auto.
Qed.

Lemma mapLoop_ext (f g : Value -> Value -> MatchResult)
      (actual rest : list (string * Value)) :
  Forall (fun kv => forall a, f (snd kv) a = g (snd kv) a) rest ->
  forall unbounded, mapLoop f actual unbounded rest = mapLoop g actual unbounded rest.
Proof.
  induction 1 as [| [k v1] rest Hv _ IH]; intro unbounded; simpl; [reflexivity |].
  destruct (isUnbounded (VString k)); [apply IH |].
  destruct (mapIndex k actual) as [v2 |]; [| reflexivity].
  simpl in Hv. rewrite Hv. destruct (g v1 v2) as [[keyPath [err |]] |]; auto.
Qed.

(** Two matchers that recognize the same patterns and whose [Match] return
    the same error on them drive the engine to the same result. *)
Lemma deepMatch_ext (m m' : JSONMatcher.t) :
  (forall p, ValueMatcher.CanMatch (valueMatcher m') p
             = ValueMatcher.CanMatch (valueMatcher m) p) ->
  (forall p v, ValueMatcher.CanMatch (valueMatcher m) p = true ->
               snd (ValueMatcher.Match (valueMatcher m') p v)
               = snd (ValueMatcher.Match (valueMatcher m) p v)) ->
  forall expected actual, deepMatch m' expected actual = deepMatch m expected actual.
Proof.
  intros Hcan Herr expected.
  induction expected as [| b | f | s | es IH | es IH] using Value_tree_ind;
    intro actual; rewrite !deepMatch_unfold, Hcan;
    destruct (negb (GoType_eqb _ _) && negb _); try reflexivity;
    simpl; unfold matchValue; rewrite ?Hcan.
  1-4: destruct (ValueMatcher.CanMatch (valueMatcher m) _) eqn:E;
       [rewrite (Herr _ _ E) |]; reflexivity.
  - destruct actual; try reflexivity.
    unfold deepMatchArray, deepMatchArrayOver.
    rewrite (arrayLoop_ext (deepMatch m') (deepMatch m) xs es IH). reflexivity.
  - destruct actual; try reflexivity.
    unfold deepMatchMap, deepMatchMapOver.
    rewrite (mapLoop_ext (deepMatch m') (deepMatch m) kvs es IH). reflexivity.
Qed.

(** C9: at the scalar step, when the matcher recognizes [expected], the
    engine returns the error of the matcher's [Match] and drops its
    boolean.  For any [ValueMatcher] given to [NewJSONMatcher] and a
    recognized scalar document, a [Match] returning [(false, nil)] makes
    the top-level match succeed and one returning [(true, err)] makes it
    fail with [err]; and two matchers that differ only in the booleans
    they return give the same result on every pair of documents. *)
Theorem matcher_boolean_discarded
  (Unmarshal : string -> option Value) (vm : ValueMatcher.t)
  (expectedJSON actualJSON : string) (expected actual : Value) :
  ValueMatcher.CanMatch vm expected = true ->
  isContainer expected = false ->
  Unmarshal expectedJSON = Some expected ->
  Unmarshal actualJSON = Some actual ->
  matchValue (NewJSONMatcher vm) expected actual
  = Return ([], snd (ValueMatcher.Match vm expected actual)) /\
  (ValueMatcher.Match vm expected actual = (false, None) ->
   JSONMatcher.Match Unmarshal (NewJSONMatcher vm) expectedJSON actualJSON
   = Return (true, None)) /\
  (forall err, ValueMatcher.Match vm expected actual = (true, Some err) ->
   JSONMatcher.Match Unmarshal (NewJSONMatcher vm) expectedJSON actualJSON
   = Return (false, Some err)) /\
  (forall vm',
      (forall p, ValueMatcher.CanMatch vm' p = ValueMatcher.CanMatch vm p) ->
      (forall p v, snd (ValueMatcher.Match vm' p v) = snd (ValueMatcher.Match vm p v)) ->
      forall e a, deepMatch (NewJSONMatcher vm') e a = deepMatch (NewJSONMatcher vm) e a).
Proof.
  intros Hcan Hleaf He Ha.
  assert (Hdeep : deepMatch (NewJSONMatcher vm) expected actual
                  = Return ([], snd (ValueMatcher.Match vm expected actual))).
  { rewrite deepMatch_recognized by exact Hcan.
    rewrite dispatch_leaf by exact Hleaf.
    apply matchValue_recognized. exact Hcan. }
  split; [apply matchValue_recognized; exact Hcan |].
  split; [| split].
  - intro Hm. unfold JSONMatcher.Match. rewrite He, Ha, Hdeep, Hm. reflexivity.
  - intros err Hm. unfold JSONMatcher.Match. rewrite He, Ha, Hdeep, Hm. reflexivity.
  - intros vm' H1 H2. apply deepMatch_ext; simpl; auto.
Qed.

Lemma matcher_boolean_discarded_witness :
  JSONMatcher.Match testUnmarshal (NewJSONMatcher (fixedMatcher (false, None)))
    (quoted patternWildcard) "100" = Return (true, None) /\
  JSONMatcher.Match testUnmarshal (NewJSONMatcher (fixedMatcher (true, Some "refused")))
    (quoted patternWildcard) "100" = Return (false, Some "refused").
Proof.
  split.
  - apply (matcher_boolean_discarded testUnmarshal (fixedMatcher (false, None))
             (quoted patternWildcard) "100" (VString patternWildcard) (num 100));
      reflexivity.
  - apply (matcher_boolean_discarded testUnmarshal (fixedMatcher (true, Some "refused"))
             (quoted patternWildcard) "100" (VString patternWildcard) (num 100));
      reflexivity.
Defined.

(** ** Absence of panics *)

Lemma isPattern_string (p : Value) (pattern : string) :
  isPattern p pattern = true -> TypeOf p = TString.
Proof. destruct p; simpl; intro H; try discriminate H; reflexivity. Qed.

Lemma wildcard_stringPatterns (pattern : string) :
  stringPatterns (WildcardMatcher.New pattern).
Proof. intros p. apply isPattern_string. Qed.

Lemma number_stringPatterns (pattern : string) :
  stringPatterns (NumberMatcher.New pattern).
Proof. intros p. apply isPattern_string. Qed.

Lemma bool_stringPatterns (pattern : string) :
  stringPatterns (BoolMatcher.New pattern).
Proof. intros p. apply isPattern_string. Qed.

Lemma string_stringPatterns (pattern : string) :
  stringPatterns (StringMatcher.New pattern).
Proof. intros p. apply isPattern_string. Qed.

Lemma array_stringPatterns (pattern : string) :
  stringPatterns (ArrayMatcher.New pattern).
Proof. intros p. apply isPattern_string. Qed.

Lemma uuid_stringPatterns (Parse : string -> bool) (pattern : string) :
  stringPatterns (UUIDMatcher.New Parse pattern).
Proof. intros p. apply isPattern_string. Qed.

Lemma email_stringPatterns (MatchString : string -> bool) (pattern : string) :
  stringPatterns (EmailMatcher.New MatchString pattern).
Proof. intros p. apply isPattern_string. Qed.

Lemma chain_stringPatterns (ms : list ValueMatcher.t) :
  Forall stringPatterns ms -> stringPatterns (ChainMatcher.New ms).
Proof.
  intros Hall p Hp. simpl in Hp.
  apply chain_CanMatch_exists in Hp. destruct Hp as [c [Hin Hc]].
  rewrite Forall_forall in Hall. exact (Hall c Hin p Hc).
Qed.

Lemma default_stringPatterns (uuidParse emailMatchString : string -> bool) :
  stringPatterns (valueMatcher (NewDefaultJSONMatcher uuidParse emailMatchString)).
Proof.
  apply chain_stringPatterns. unfold defaultMatchers.
  repeat apply Forall_cons; try apply Forall_nil.
  - apply string_stringPatterns.
  - apply number_stringPatterns.
  - apply bool_stringPatterns.
  - apply array_stringPatterns.
  - apply uuid_stringPatterns.
  - apply email_stringPatterns.
  - apply wildcard_stringPatterns.
Qed.

Lemma arrayLoop_no_panic (f : Value -> Value -> MatchResult) (actual rest : list Value) :
  Forall (fun v => forall a, f v a <> Panic) rest ->
  forall i, i <= List.length actual ->
  arrayLoop f actual i rest <> LoopReturn Panic.
Proof.
  induction 1 as [| v rest Hv _ IH]; intros i Hi; simpl; [discriminate |].
  destruct (isUnbounded v); [discriminate |].
  destruct (Nat.eqb i (List.length actual)) eqn:E; [discriminate |].
  apply Nat.eqb_neq in E.
  destruct (nth_error actual i) as [a |] eqn:Ea.
  - specialize (Hv a).
    destruct (f v a) as [[keyPath [err |]] |]; [discriminate | | contradiction].
    apply IH. lia.
  - apply nth_error_None in Ea. lia.
Qed.

Lemma mapLoop_no_panic (f : Value -> Value -> MatchResult)
      (actual rest : list (string * Value)) :
  Forall (fun kv => forall a, f (snd kv) a <> Panic) rest ->
  forall unbounded, mapLoop f actual unbounded rest <> LoopReturn Panic.
Proof.
  induction 1 as [| [k v1] rest Hv _ IH]; intro unbounded; simpl; [discriminate |].
  destruct (isUnbounded (VString k)); [apply IH |].
  destruct (mapIndex k actual) as [v2 |]; [| discriminate].
  specialize (Hv v2). simpl in Hv.
  destruct (f v1 v2) as [[keyPath [err |]] |]; [discriminate | apply IH | contradiction].
Qed.

Lemma deepMatch_no_panic (m : JSONMatcher.t) :
  stringPatterns (valueMatcher m) ->
  forall expected actual, deepMatch m expected actual <> Panic.
Proof.
  intros Hstr expected.
  induction expected as [| b | f | s | es IH | es IH] using Value_tree_ind;
    intro actual; rewrite deepMatch_unfold.
  1-4: destruct (negb (GoType_eqb _ _) && negb _); [discriminate |];
       simpl; unfold matchValue;
       destruct (ValueMatcher.CanMatch _ _); [discriminate |];
       destruct actual; simpl; try discriminate;
       match goal with |- context [if ?c then _ else _] => destruct c end; discriminate.
  - destruct (ValueMatcher.CanMatch (valueMatcher m) (VSlice es)) eqn:Ec.
    { apply Hstr in Ec. discriminate Ec. }
    destruct actual; simpl; try discriminate.
    unfold deepMatchArray, deepMatchArrayOver.
    pose proof (arrayLoop_no_panic (deepMatch m) xs es IH 0 (Nat.le_0_l _)) as Hloop.
    destruct (arrayLoop (deepMatch m) xs 0 es) as [unbounded | r].
    + destruct (negb unbounded && _); discriminate.
    + intro Hr. apply Hloop. rewrite Hr. reflexivity.
  - destruct (ValueMatcher.CanMatch (valueMatcher m) (VMap es)) eqn:Ec.
    { apply Hstr in Ec. discriminate Ec. }
    destruct actual; simpl; try discriminate.
    unfold deepMatchMap, deepMatchMapOver.
    pose proof (mapLoop_no_panic (deepMatch m) kvs es IH false) as Hloop.
    destruct (mapLoop (deepMatch m) kvs false es) as [unbounded | r].
    + destruct (negb unbounded && _); discriminate.
    + intro Hr. apply Hloop. rewrite Hr. reflexivity.
Qed.

Lemma deepMatch_container_mismatch (m : JSONMatcher.t) (expected actual : Value) :
  isContainer expected = true ->
  ValueMatcher.CanMatch (valueMatcher m) expected = true ->
  TypeOf expected <> TypeOf actual ->
  deepMatch m expected actual = Panic.
Proof.
  intros Hcont Hcan Hty. rewrite (deepMatch_recognized _ _ _ Hcan).
  destruct expected; try discriminate Hcont;
    destruct actual; simpl in *; try reflexivity; contradiction.
Qed.

(** C10: [deepMatch] reaches the type assertions on [actual] only when
    the types of [expected] and [actual] are equal or the matcher
    recognizes [expected] (otherwise it has returned "types are not
    equal").  Hence, when the matcher recognizes strings only, [actual]
    has the type of [expected] at the assertions and the engine never
    panics, on any pair of values and at any depth, and neither does
    [Match].  A matcher that recognizes a slice or a map loses this: against
    an [actual] of another type the assertion panics. *)
Theorem deepMatch_casts_guarded (m : JSONMatcher.t) :
  (forall expected actual,
      isContainer expected = true ->
      TypeOf expected = TypeOf actual \/
      ValueMatcher.CanMatch (valueMatcher m) expected = true \/
      deepMatch m expected actual = Return ([], Some errTypesNotEqual)) /\
  (stringPatterns (valueMatcher m) ->
   (forall expected actual,
       isContainer expected = true ->
       TypeOf expected = TypeOf actual \/
       deepMatch m expected actual = Return ([], Some errTypesNotEqual)) /\
   (forall expected actual, deepMatch m expected actual <> Panic) /\
   (forall Unmarshal expectedJSON actualJSON,
       JSONMatcher.Match Unmarshal m expectedJSON actualJSON <> Panic)) /\
  (forall uuidParse emailMatchString,
      stringPatterns (valueMatcher (NewDefaultJSONMatcher uuidParse emailMatchString))) /\
  (forall expected actual,
      isContainer expected = true ->
      ValueMatcher.CanMatch (valueMatcher m) expected = true ->
      TypeOf expected <> TypeOf actual ->
      deepMatch m expected actual = Panic).
Proof.
  split; [| split; [| split; [exact default_stringPatterns |]]].
  - intros expected actual _.
    destruct (GoType_eqb (TypeOf expected) (TypeOf actual)) eqn:Et.
    { left. apply GoType_eqb_eq. exact Et. }
    destruct (ValueMatcher.CanMatch (valueMatcher m) expected) eqn:Ec; [auto |].
    right; right. rewrite deepMatch_unfold, Et, Ec. reflexivity.
  - intro Hstr. split; [| split; [apply deepMatch_no_panic; exact Hstr |]].
    { intros expected actual Hcont.
      destruct (GoType_eqb (TypeOf expected) (TypeOf actual)) eqn:Et.
      { left. apply GoType_eqb_eq. exact Et. }
      right. rewrite deepMatch_unfold, Et.
      destruct (ValueMatcher.CanMatch (valueMatcher m) expected) eqn:Ec; [| reflexivity].
      apply Hstr in Ec. destruct expected; discriminate. }
    intros Unmarshal expectedJSON actualJSON. unfold JSONMatcher.Match.
    destruct (Unmarshal expectedJSON) as [expected |]; [| discriminate].
    destruct (Unmarshal actualJSON) as [actual |]; [| discriminate].
    pose proof (deepMatch_no_panic m Hstr expected actual) as Hnp.
    destruct (deepMatch m expected actual) as [[path [err |]] |];
      [destruct (Nat.ltb 0 (List.length path)); discriminate | discriminate | contradiction].
  - intros expected actual Hcont Hcan Hty.
    apply deepMatch_container_mismatch; assumption.
Qed.

Lemma deepMatch_casts_guarded_witness :
  deepMatch testMatcher (VSlice [num 1]) (num 1) <> Panic /\
  deepMatch (NewJSONMatcher greedyMatcher) (VSlice [num 1]) (num 1) = Panic.
Proof.
  split.
  - apply (proj2 (deepMatch_casts_guarded testMatcher)).
    intros p Hp. destruct p; simpl in Hp; try discriminate Hp. reflexivity.
  - apply (proj2 (proj2 (proj2 (deepMatch_casts_guarded (NewJSONMatcher greedyMatcher)))));
      [reflexivity | reflexivity | simpl; discriminate].
Defined.

(** ** Where the errors of the engine come from *)

Section ErrorOrigin.
Variable m : JSONMatcher.t.
Variable Q : error -> Prop.
Hypothesis Qtypes : Q errTypesNotEqual.
Hypothesis Qvalues : Q errValuesNotEqual.
Hypothesis Qarrays : Q errArraysLenNotEqual.
Hypothesis Qunexpected : Q errUnexpectedKey.
Hypothesis Qexpected : forall k, Q (errExpectedKey k).
Hypothesis Qmatcher :
  forall p v err,
    ValueMatcher.CanMatch (valueMatcher m) p = true ->
    snd (ValueMatcher.Match (valueMatcher m) p v) = Some err -> Q err.

Let sound (f : Value -> Value -> MatchResult) (v : Value) : Prop :=
  forall a path err, f v a = Return (path, Some err) -> Q err.

Lemma arrayLoop_error_origin (f : Value -> Value -> MatchResult)
      (actual rest : list Value) :
  Forall (sound f) rest ->
  forall i path err,
    arrayLoop f actual i rest = LoopReturn (Return (path, Some err)) -> Q err.
Proof.
  induction 1 as [| v rest Hv _ IH]; intros i path err; simpl; [discriminate |].
  destruct (isUnbounded v); [discriminate |].
  destruct (Nat.eqb i (List.length actual)); [discriminate |].
  destruct (nth_error actual i) as [a |]; [| discriminate].
  destruct (f v a) as [[keyPath [e |]] |] eqn:Ef; [| apply IH | discriminate].
  intro H. injection H as _ <-. exact (Hv a keyPath e Ef).
Qed.

Lemma mapLoop_error_origin (f : Value -> Value -> MatchResult)
      (actual rest : list (string * Value)) :
  Forall (fun kv => sound f (snd kv)) rest ->
  forall unbounded path err,
    mapLoop f actual unbounded rest = LoopReturn (Return (path, Some err)) -> Q err.
Proof.
  induction 1 as [| [k v1] rest Hv _ IH]; intros unbounded path err; simpl;
    [discriminate |].
  destruct (isUnbounded (VString k)); [apply IH |].
  destruct (mapIndex k actual) as [v2 |].
  - destruct (f v1 v2) as [[keyPath [e |]] |] eqn:Ef; [| apply IH | discriminate].
    intro H. injection H as _ <-. exact (Hv v2 keyPath e Ef).
  - intro H. injection H as _ <-. apply Qexpected.
Qed.

Lemma matchValue_error_origin (expected actual : Value) (path : Path) (err : error) :
  matchValue m expected actual = Return (path, Some err) -> Q err.
Proof.
  unfold matchValue.
  destruct (ValueMatcher.CanMatch (valueMatcher m) expected) eqn:Ec.
  - intro H. injection H as _ H. exact (Qmatcher _ _ _ Ec H).
  - destruct (ifaceEq expected actual) as [[|] |]; try discriminate.
    intro H. injection H as _ <-. exact Qvalues.
Qed.

Lemma deepMatch_error_origin (expected : Value) :
  forall actual path err,
    deepMatch m expected actual = Return (path, Some err) -> Q err.
Proof.
  induction expected as [| b | f | s | es IH | es IH] using Value_tree_ind;
    intros actual path err; rewrite deepMatch_unfold;
    (destruct (negb (GoType_eqb _ _) && negb _);
     [intro H; injection H as _ <-; exact Qtypes |]); simpl.
  1-4: apply matchValue_error_origin.
  - destruct actual; try discriminate.
    unfold deepMatchArray, deepMatchArrayOver.
    destruct (arrayLoop (deepMatch m) xs 0 es) as [unbounded | r] eqn:El.
    + destruct (negb unbounded && _); [| discriminate].
      intro H. injection H as _ <-. exact Qarrays.
    + intros ->. exact (arrayLoop_error_origin _ _ _ IH _ _ _ El).
  - destruct actual; try discriminate.
    unfold deepMatchMap, deepMatchMapOver.
    destruct (mapLoop (deepMatch m) kvs false es) as [unbounded | r] eqn:El.
    + destruct (negb unbounded && _); [| discriminate].
      intro H. injection H as _ <-. exact Qunexpected.
    + intros ->. exact (mapLoop_error_origin _ _ _ IH _ _ _ El).
Qed.
End ErrorOrigin.

(** ** Exhaustion of the chain *)

Lemma chain_reportsOwnErrors (ms : list ValueMatcher.t) :
  Forall reportsOwnErrors ms -> reportsOwnErrors (ChainMatcher.New ms).
Proof.
  intros Hall p v. simpl.
  induction Hall as [| c ms Hc _ IH]; simpl; [discriminate |].
  destruct (ValueMatcher.CanMatch c p) eqn:Ec; simpl; [intros _; apply Hc; exact Ec | exact IH].
Qed.

Lemma wildcard_reportsOwnErrors (pattern : string) :
  reportsOwnErrors (WildcardMatcher.New pattern).
Proof. intros p v _. discriminate. Qed.

Lemma number_reportsOwnErrors (pattern : string) :
  reportsOwnErrors (NumberMatcher.New pattern).
Proof. intros p v _. simpl. destruct v; discriminate. Qed.

Lemma bool_reportsOwnErrors (pattern : string) :
  reportsOwnErrors (BoolMatcher.New pattern).
Proof. intros p v _. simpl. destruct v; discriminate. Qed.

Lemma string_reportsOwnErrors (pattern : string) :
  reportsOwnErrors (StringMatcher.New pattern).
Proof. intros p v _. simpl. destruct v; discriminate. Qed.

Lemma array_reportsOwnErrors (pattern : string) :
  reportsOwnErrors (ArrayMatcher.New pattern).
Proof. intros p v _. simpl. destruct v; discriminate. Qed.

Lemma uuid_reportsOwnErrors (Parse : string -> bool) (pattern : string) :
  reportsOwnErrors (UUIDMatcher.New Parse pattern).
Proof.
  intros p v _. simpl. destruct v; try discriminate.
  unfold UUIDMatcher.Match. destruct (Parse s); discriminate.
Qed.

Lemma email_reportsOwnErrors (MatchString : string -> bool) (pattern : string) :
  reportsOwnErrors (EmailMatcher.New MatchString pattern).
Proof.
  intros p v _. simpl. destruct v; try discriminate.
  unfold EmailMatcher.Match. destruct (MatchString s); discriminate.
Qed.

Lemma default_reportsOwnErrors (uuidParse emailMatchString : string -> bool) :
  Forall reportsOwnErrors (defaultMatchers uuidParse emailMatchString).
Proof.
  unfold defaultMatchers. repeat apply Forall_cons; try apply Forall_nil.
  - apply string_reportsOwnErrors.
  - apply number_reportsOwnErrors.
  - apply bool_reportsOwnErrors.
  - apply array_reportsOwnErrors.
  - apply uuid_reportsOwnErrors.
  - apply email_reportsOwnErrors.
  - apply wildcard_reportsOwnErrors.
Qed.

Lemma path_suffix_not_exhaustion (err suffix : string) :
  err ++ " at path: " ++ suffix <> errMatcherNotFound.
Proof.
  unfold errMatcherNotFound. intro H.
  repeat (destruct err as [| ? err]; simpl in H; [discriminate H | injection H as _ H]).
  destruct err; discriminate H.
Qed.

Lemma chainMatchOr_default (ms : list ValueMatcher.t) (p v : Value) :
  chainMatchOr (false, Some errMatcherNotFound) ms p v = ChainMatcher.Match ms p v.
Proof.
  induction ms as [| c ms IH]; simpl; [reflexivity |].
  destruct (negb (ValueMatcher.CanMatch c p)); [exact IH | reflexivity].
Qed.

Lemma chainMatchOr_recognized (ms : list ValueMatcher.t) (p v : Value)
      (exhausted exhausted' : bool * option error) :
  ChainMatcher.CanMatch ms p = true ->
  chainMatchOr exhausted ms p v = chainMatchOr exhausted' ms p v.
Proof.
  induction ms as [| c ms IH]; simpl; [discriminate |].
  destruct (ValueMatcher.CanMatch c p); simpl; [reflexivity | exact IH].
Qed.

Lemma chain_unrecognized (ms : list ValueMatcher.t) (p v : Value) :
  ChainMatcher.CanMatch ms p = false ->
  ChainMatcher.Match ms p v = (false, Some errMatcherNotFound).
Proof.
  induction ms as [| c ms IH]; simpl; [reflexivity |].
  destruct (ValueMatcher.CanMatch c p); simpl; [discriminate | exact IH].
Qed.

Lemma deepMatch_unrecognized_string (m : JSONMatcher.t) (s : string) (actual : Value) :
  ValueMatcher.CanMatch (valueMatcher m) (VString s) = false ->
  deepMatch m (VString s) actual
  = match actual with
    | VString t =>
        if String.eqb s t then Return ([], None)
        else Return ([], Some errValuesNotEqual)
    | _ => Return ([], Some errTypesNotEqual)
    end.
Proof.
  intro Hcan. rewrite deepMatch_unfold, Hcan.
  destruct actual; try reflexivity.
  simpl. unfold matchValue. rewrite Hcan. simpl.
  destruct (String.eqb s s0); reflexivity.
Qed.

(** C4 (amended): with a chain as the configured matcher, the result of
    the engine does not depend on what [ChainMatcher.Match] returns when
    no constituent recognizes the pattern: that [return] is never reached
    from [deepMatch].  Hence, when no constituent itself reports "none of
    matchers could be used" on a pattern it recognizes, neither
    [deepMatch] nor [Match] returns that error; the matchers of the default
    chain are of this kind.  An expected string that no constituent
    recognizes meets the guard on the types and then literal equality:
    against an [actual] that is no string the result is "types are not
    equal", against another string it is "values are not equal", and
    against the same string it is a success; the chain called alone on that
    placeholder returns the exhaustion error. *)
Theorem chain_exhaustion_unreachable (ms : list ValueMatcher.t) :
  (forall exhausted expected actual,
      deepMatch (NewJSONMatcher (ValueMatcher.Build (ChainMatcher.CanMatch ms)
                                                     (chainMatchOr exhausted ms)))
        expected actual
      = deepMatch (NewJSONMatcher (ChainMatcher.New ms)) expected actual) /\
  (Forall reportsOwnErrors ms ->
   (forall expected actual path,
       deepMatch (NewJSONMatcher (ChainMatcher.New ms)) expected actual
       <> Return (path, Some errMatcherNotFound)) /\
   (forall Unmarshal expectedJSON actualJSON b,
       JSONMatcher.Match Unmarshal (NewJSONMatcher (ChainMatcher.New ms))
         expectedJSON actualJSON
       <> Return (b, Some errMatcherNotFound))) /\
  (forall uuidParse emailMatchString,
      Forall reportsOwnErrors (defaultMatchers uuidParse emailMatchString)) /\
  (forall s actual,
      ChainMatcher.CanMatch ms (VString s) = false ->
      ChainMatcher.Match ms (VString s) actual = (false, Some errMatcherNotFound) /\
      matchValue (NewJSONMatcher (ChainMatcher.New ms)) (VString s) actual
      = (if ifaceEqb (VString s) actual then Return ([], None)
         else Return ([], Some errValuesNotEqual)) /\
      deepMatch (NewJSONMatcher (ChainMatcher.New ms)) (VString s) actual
      = match actual with
        | VString t =>
            if String.eqb s t then Return ([], None)
            else Return ([], Some errValuesNotEqual)
        | _ => Return ([], Some errTypesNotEqual)
        end /\
      (forall Unmarshal expectedJSON actualJSON t,
          Unmarshal expectedJSON = Some (VString s) ->
          Unmarshal actualJSON = Some actual ->
          actual = VString t -> s <> t ->
          JSONMatcher.Match Unmarshal (NewJSONMatcher (ChainMatcher.New ms))
            expectedJSON actualJSON
          = Return (false, Some errValuesNotEqual))).
Proof.
  split; [| split; [| split; [exact default_reportsOwnErrors |]]].
  - intros exhausted expected actual. apply deepMatch_ext; simpl.
    + reflexivity.
    + intros p v Hcan. rewrite <- chainMatchOr_default.
      f_equal. apply chainMatchOr_recognized. exact Hcan.
  - intro Hown.
    assert (Hdeep : forall expected actual path,
               deepMatch (NewJSONMatcher (ChainMatcher.New ms)) expected actual
               <> Return (path, Some errMatcherNotFound)).
    { intros expected actual path H.
      refine (deepMatch_error_origin (NewJSONMatcher (ChainMatcher.New ms))
                (fun err => err <> errMatcherNotFound)
                _ _ _ _ _ _ expected actual path errMatcherNotFound H eq_refl);
        try discriminate.
      intros p v err Hc Hm Heq. subst err.
      exact (chain_reportsOwnErrors ms Hown p v Hc Hm). }
    split; [exact Hdeep |].
    intros Unmarshal expectedJSON actualJSON b. unfold JSONMatcher.Match.
    destruct (Unmarshal expectedJSON) as [expected |]; [| discriminate].
    destruct (Unmarshal actualJSON) as [actual |]; [| discriminate].
    specialize (Hdeep expected actual).
    destruct (deepMatch _ expected actual) as [[path [err |]] |]; try discriminate.
    destruct (Nat.ltb 0 (List.length path)).
    + intro H. injection H as _ H. exact (path_suffix_not_exhaustion _ _ H).
    + intro H. injection H as _ H. subst err. exact (Hdeep path eq_refl).
  - intros s actual Hcan.
    pose proof (deepMatch_unrecognized_string (NewJSONMatcher (ChainMatcher.New ms))
                  s actual Hcan) as Hdeep.
    split; [apply chain_unrecognized; exact Hcan |].
    split; [| split; [exact Hdeep |]].
    + unfold matchValue. simpl valueMatcher. simpl ValueMatcher.CanMatch.
      rewrite Hcan. destruct actual; reflexivity.
    + intros Unmarshal expectedJSON actualJSON t He Ha -> Hne.
      unfold JSONMatcher.Match. rewrite He, Ha, Hdeep.
      apply String.eqb_neq in Hne. rewrite Hne. reflexivity.
Qed.

Lemma chain_exhaustion_unreachable_witness :
  (forall expected actual path,
      deepMatch (NewJSONMatcher (ChainMatcher.New testChain)) expected actual
      <> Return (path, Some errMatcherNotFound)) /\
  JSONMatcher.Match testUnmarshal (NewJSONMatcher (ChainMatcher.New testChain))
    (quoted patternString) (quoted "John")
  = Return (false, Some errValuesNotEqual).
Proof.
  split.
  - apply (proj1 (proj2 (chain_exhaustion_unreachable testChain))).
    repeat constructor.
    + apply number_reportsOwnErrors.
    + apply bool_reportsOwnErrors.
    + apply wildcard_reportsOwnErrors.
  - refine (proj2 (proj2 (proj2 (proj2 (proj2 (proj2
                     (chain_exhaustion_unreachable testChain)))
                     patternString (VString "John") eq_refl)))
              testUnmarshal (quoted patternString) (quoted "John") "John"
              eq_refl eq_refl eq_refl _).
    discriminate.
Defined.

(** C4 as stated fails: the chain of the number, bool and wildcard
    matchers does not recognize "@string@", yet against the number 100 the
    match fails with "types are not equal", without reaching the scalar
    comparison, and against the same string it succeeds. *)
Lemma unrecognized_placeholder_counterexample :
  ChainMatcher.CanMatch testChain (VString patternString) = false /\
  JSONMatcher.Match testUnmarshal (NewJSONMatcher (ChainMatcher.New testChain))
    (quoted patternString) "100"
  = Return (false, Some errTypesNotEqual) /\
  JSONMatcher.Match testUnmarshal (NewJSONMatcher (ChainMatcher.New testChain))
    (quoted patternString) (quoted patternString)
  = Return (true, None) /\
  ~ (forall ms s actual Unmarshal expectedJSON actualJSON,
        ChainMatcher.CanMatch ms (VString s) = false ->
        Unmarshal expectedJSON = Some (VString s) ->
        Unmarshal actualJSON = Some actual ->
        JSONMatcher.Match Unmarshal (NewJSONMatcher (ChainMatcher.New ms))
          expectedJSON actualJSON
        = Return (false, Some errValuesNotEqual)).
Proof.
  repeat split; try reflexivity.
  intro H.
  specialize (H testChain patternString (num 100) testUnmarshal
                (quoted patternString) "100" eq_refl eq_refl eq_refl).
  discriminate H.
Qed.

(** ** Paths *)

Lemma arrayLoop_return_shape (f : Value -> Value -> MatchResult)
      (actual rest : list Value) :
  forall i path err,
    arrayLoop f actual i rest = LoopReturn (Return (path, Some err)) ->
    exists j v a keyPath,
      nth_error rest j = Some v /\ nth_error actual (i + j) = Some a /\
      f v a = Return (keyPath, Some err) /\
      path = (keyPath ++ [SegInt (Z.of_nat (i + j))])%list.
Proof.
  induction rest as [| v rest IH]; intros i path err; simpl; [discriminate |].
  destruct (isUnbounded v); [discriminate |].
  destruct (Nat.eqb i (List.length actual)); [discriminate |].
  destruct (nth_error actual i) as [a |] eqn:Ea; [| discriminate].
  destruct (f v a) as [[keyPath [e |]] |] eqn:Ef; [| | discriminate].
  - intro H. injection H as <- <-.
    exists 0, v, a, keyPath. rewrite Nat.add_0_r. auto.
  - intro H. destruct (IH _ _ _ H) as [j [v' [a' [kp [H1 [H2 [H3 H4]]]]]]].
    exists (S j), v', a', kp. rewrite Nat.add_succ_r. auto.
Qed.

Lemma mapLoop_return_shape (f : Value -> Value -> MatchResult)
      (actual rest : list (string * Value)) :
  forall unbounded path err,
    mapLoop f actual unbounded rest = LoopReturn (Return (path, Some err)) ->
    (path = [] /\ exists k v1, In (k, v1) rest /\ mapIndex k actual = None /\
                               err = errExpectedKey k) \/
    (exists k v1 v2 keyPath,
        In (k, v1) rest /\ mapIndex k actual = Some v2 /\
        f v1 v2 = Return (keyPath, Some err) /\
        path = (keyPath ++ [SegString k])%list).
Proof.
  induction rest as [| [k v1] rest IH]; intros unbounded path err; simpl;
    [discriminate |].
  assert (Hrest : forall b, mapLoop f actual b rest = LoopReturn (Return (path, Some err)) ->
                  (path = [] /\ exists k' v1', ((k, v1) = (k', v1') \/ In (k', v1') rest) /\
                                 mapIndex k' actual = None /\ err = errExpectedKey k') \/
                  (exists k' v1' v2 keyPath,
                      ((k, v1) = (k', v1') \/ In (k', v1') rest) /\
                      mapIndex k' actual = Some v2 /\
                      f v1' v2 = Return (keyPath, Some err) /\
                      path = (keyPath ++ [SegString k'])%list)).
  { intros b H. destruct (IH _ _ _ H) as [[Hp [k' [v' [Hin Hr]]]] | [k' [v' [v2 [kp [Hin Hr]]]]]].
    - left. split; [exact Hp |]. exists k', v'. auto.
    - right. exists k', v', v2, kp. auto. }
  destruct (isUnbounded (VString k)); [apply Hrest |].
  destruct (mapIndex k actual) as [v2 |] eqn:Ek.
  - destruct (f v1 v2) as [[keyPath [e |]] |] eqn:Ef; [| apply Hrest | discriminate].
    intro H. injection H as <- <-. right. exists k, v1, v2, keyPath. auto.
  - intro H. injection H as <- <-. left. split; [reflexivity |]. exists k, v1. auto.
Qed.

Lemma pathToString_outermost (inner : Path) (outer : Segment) :
  pathToString (inner ++ [outer])%list
  = fold_left writeSegment (rev inner) (writeSegment "" outer).
Proof. unfold pathToString. rewrite rev_app_distr. reflexivity. Qed.

(** C5: when [deepMatchArray] or [deepMatchMap] fails, either the error is
    the container's own and the path is empty, or an element failed and
    the returned path is the element's path with exactly one more segment,
    the index or key recursed into, which is the first one [pathToString]
    renders.  [Match] appends " at path: " and the rendered path to the
    message only when the path is not empty.  The rendering walks from the
    outermost segment inwards, writes an index as [[N]] with nothing before
    it, and a key after a '.' when something has been written already. *)
Theorem failure_path_reporting (m : JSONMatcher.t) :
  (forall es xs path err,
      deepMatchArray m es xs = Return (path, Some err) ->
      (path = [] /\ err = errArraysLenNotEqual) \/
      (exists i v a keyPath,
          nth_error es i = Some v /\ nth_error xs i = Some a /\
          deepMatch m v a = Return (keyPath, Some err) /\
          path = (keyPath ++ [SegInt (Z.of_nat i)])%list)) /\
  (forall es xs path err,
      deepMatchMap m es xs = Return (path, Some err) ->
      (path = [] /\ (err = errUnexpectedKey \/ exists k, err = errExpectedKey k)) \/
      (exists k v1 v2 keyPath,
          In (k, v1) es /\ mapIndex k xs = Some v2 /\
          deepMatch m v1 v2 = Return (keyPath, Some err) /\
          path = (keyPath ++ [SegString k])%list)) /\
  (forall Unmarshal expectedJSON actualJSON expected actual path err,
      Unmarshal expectedJSON = Some expected ->
      Unmarshal actualJSON = Some actual ->
      deepMatch m expected actual = Return (path, Some err) ->
      JSONMatcher.Match Unmarshal m expectedJSON actualJSON
      = Return (false, Some match path with
                            | [] => err
                            | _ :: _ => err ++ " at path: " ++ pathToString path
                            end)) /\
  (forall keyPath segment,
      pathToString (keyPath ++ [segment])%list
      = fold_left writeSegment (rev keyPath) (writeSegment "" segment)) /\
  (forall b i,
      writeSegment b (SegInt i) = b ++ "[" ++ NilZero.string_of_int (Z.to_int i) ++ "]") /\
  (forall b k,
      writeSegment b (SegString k) = match b with
                                     | EmptyString => k
                                     | String _ _ => (b ++ ".") ++ k
                                     end) /\
  pathToString [SegString "type"; SegInt 1; SegString "phones"] = "phones[1].type" /\
  pathToString [SegString "b"; SegString "a"] = "a.b" /\
  JSONMatcher.Match testUnmarshal testMatcher (personText "work") (personText "mobile")
  = Return (false, Some "values are not equal at path: phones[1].type").
Proof.
  repeat split; try reflexivity.
  - intros es xs path err. unfold deepMatchArray, deepMatchArrayOver.
    destruct (arrayLoop (deepMatch m) xs 0 es) as [unbounded | r] eqn:El.
    + destruct (negb unbounded && _); [| discriminate].
      intro H. injection H as <- <-. auto.
    + intros ->. right. exact (arrayLoop_return_shape _ _ _ _ _ _ El).
  - intros es xs path err. unfold deepMatchMap, deepMatchMapOver.
    destruct (mapLoop (deepMatch m) xs false es) as [unbounded | r] eqn:El.
    + destruct (negb unbounded && _); [| discriminate].
      intro H. injection H as <- <-. auto.
    + intros ->.
      destruct (mapLoop_return_shape _ _ _ _ _ _ El)
        as [[Hp [k [v1 [_ [_ He]]]]] | Hex]; [left | right; exact Hex].
      split; [exact Hp |]. right. exists k. exact He.
  - intros Unmarshal expectedJSON actualJSON expected actual path err He Ha Hd.
    unfold JSONMatcher.Match. rewrite He, Ha, Hd. destruct path; reflexivity.
  - intros keyPath segment. apply pathToString_outermost.
  - intros b k. destruct b; reflexivity.
Qed.

Lemma failure_path_reporting_witness :
  JSONMatcher.Match testUnmarshal testMatcher "[1,2,3]" "[1,3,2]"
  = Return (false, Some "values are not equal at path: [1]").
Proof.
  exact (proj1 (proj2 (proj2 (failure_path_reporting testMatcher)))
           testUnmarshal "[1,2,3]" "[1,3,2]"
           (VSlice [num 1; num 2; num 3]) (VSlice [num 1; num 3; num 2])
           [SegInt 1] errValuesNotEqual eq_refl eq_refl eq_refl).
Defined.

(** ** Reflexivity *)


Lemma mapIndex_distinct (kvs : list (string * Value)) (k : string) (v : Value) :
  distinct (map fst kvs) = true -> In (k, v) kvs -> mapIndex k kvs = Some v.
Proof.
  induction kvs as [| [k' v'] kvs IH]; simpl; [intros _ [] |].
  intros Hd [Heq | Hin]; apply andb_true_iff in Hd; destruct Hd as [Hfresh Hd].
  - injection Heq as -> ->. rewrite String.eqb_refl. reflexivity.
  - destruct (String.eqb k k') eqn:E; [| auto].
    apply String.eqb_eq in E. subst k'.
    apply negb_true_iff in Hfresh.
    assert (Hex : existsb (String.eqb k) (map fst kvs) = true).
    { apply existsb_exists. exists k. split; [| apply String.eqb_refl].
      change k with (fst (k, v)). apply in_map. exact Hin. }
    congruence.
Qed.



Lemma arrayLoop_return_failed (f : Value -> Value -> MatchResult)
      (actual rest : list Value) :
  forall i r, arrayLoop f actual i rest = LoopReturn r -> succeeded r = false.
Proof.
  induction rest as [| v rest IH]; intros i r; simpl; [discriminate |].
  destruct (isUnbounded v); [discriminate |].
  destruct (Nat.eqb i (List.length actual)); [discriminate |].
  destruct (nth_error actual i) as [a |]; [| intro H; injection H as <-; reflexivity].
  destruct (f v a) as [[keyPath [err |]] |]; [| apply IH |];
    intro H; injection H as <-; reflexivity.
Qed.

Lemma mapLoop_return_failed (f : Value -> Value -> MatchResult)
      (actual rest : list (string * Value)) :
  forall unbounded r,
    mapLoop f actual unbounded rest = LoopReturn r -> succeeded r = false.
Proof.
  induction rest as [| [k v1] rest IH]; intros unbounded r; simpl; [discriminate |].
  destruct (isUnbounded (VString k)); [apply IH |].
  destruct (mapIndex k actual) as [v2 |]; [| intro H; injection H as <-; reflexivity].
  destruct (f v1 v2) as [[keyPath [err |]] |]; [| apply IH |];
    intro H; injection H as <-; reflexivity.
Qed.

(** A success carries the empty path. *)
Lemma deepMatch_succeeded (m : JSONMatcher.t) (expected actual : Value) :
  succeeded (deepMatch m expected actual) = true ->
  deepMatch m expected actual = Return ([], None).
Proof.
  rewrite deepMatch_unfold.
  destruct (negb (GoType_eqb _ _) && negb _); [discriminate |].
  destruct expected; simpl; unfold matchValue.
  1-4: destruct (ValueMatcher.CanMatch _ _);
       [destruct (snd _); [discriminate | reflexivity] |];
       destruct (ifaceEq _ _) as [[|] |]; try discriminate; reflexivity.
  - destruct actual; try discriminate.
    unfold deepMatchArray, deepMatchArrayOver.
    destruct (arrayLoop _ _ _ _) as [unbounded | r] eqn:El.
    + destruct (negb unbounded && _); [discriminate | reflexivity].
    + apply arrayLoop_return_failed in El. congruence.
  - destruct actual; try discriminate.
    unfold deepMatchMap, deepMatchMapOver.
    destruct (mapLoop _ _ _ _) as [unbounded | r] eqn:El.
    + destruct (negb unbounded && _); [discriminate | reflexivity].
    + apply mapLoop_return_failed in El. congruence.
Qed.







(** ** Arrays *)

Lemma arrayLoop_step (f : Value -> Value -> MatchResult)
      (done extra rest : list Value) (v a : Value) :
  isUnbounded v = false ->
  arrayLoop f (done ++ a :: extra) (List.length done) (v :: rest)
  = match f v a with
    | Panic => LoopReturn Panic
    | Return (keyPath, Some err) =>
        LoopReturn (Return ((keyPath ++ [SegInt (Z.of_nat (List.length done))])%list, Some err))
    | Return (_, None) =>
        arrayLoop f ((done ++ [a]) ++ extra) (List.length (done ++ [a])) rest
    end.
Proof.
  intro Hv. simpl. rewrite Hv, length_app. simpl.
  replace (Nat.eqb (List.length done) (List.length done + S (List.length extra)))
    with false by (symmetry; apply Nat.eqb_neq; lia).
  rewrite nth_error_app2, Nat.sub_diag by lia. simpl.
  rewrite <- app_assoc, length_app, Nat.add_1_r. reflexivity.
Qed.

Lemma arrayLoop_compared (f : Value -> Value -> MatchResult)
      (pre xs1 : list Value) :
  comparedOk f pre xs1 ->
  forall done xs2 rest,
    arrayLoop f (done ++ xs1 ++ xs2) (List.length done) (pre ++ rest)
    = arrayLoop f ((done ++ xs1) ++ xs2) (List.length (done ++ xs1)) rest.
Proof.
  induction 1 as [| v a pre xs1 [Hv Hok] _ IH]; intros done xs2 rest.
  - rewrite app_nil_r. reflexivity.
  - simpl app. rewrite arrayLoop_step by exact Hv.
    destruct (f v a) as [[keyPath [err |]] |]; try discriminate Hok.
    rewrite IH. rewrite <- (app_assoc done [a] xs1). reflexivity.
Qed.

Lemma comparedOk_length (f : Value -> Value -> MatchResult) (pre xs1 : list Value) :
  comparedOk f pre xs1 -> List.length pre = List.length xs1.
Proof. induction 1; simpl; congruence. Qed.

Section ArrayCases.
Variable m : JSONMatcher.t.

Lemma deepMatchArray_loop (pre xs1 rest xs2 : list Value) :
  comparedOk (deepMatch m) pre xs1 ->
  arrayLoop (deepMatch m) (xs1 ++ xs2) 0 (pre ++ rest)
  = arrayLoop (deepMatch m) (xs1 ++ xs2) (List.length xs1) rest.
Proof.
  intro H. exact (arrayLoop_compared (deepMatch m) pre xs1 H [] xs2 rest).
Qed.

(** The loop reaches the unbounded pattern. *)
Lemma deepMatchArray_unbounded (pre post xs1 extra : list Value) (u : Value) :
  comparedOk (deepMatch m) pre xs1 ->
  isUnbounded u = true ->
  deepMatchArray m (pre ++ u :: post) (xs1 ++ extra) = Return ([], None).
Proof.
  intros H Hu. unfold deepMatchArray, deepMatchArrayOver.
  rewrite deepMatchArray_loop by exact H. simpl. rewrite Hu. reflexivity.
Qed.

(** [actual] ends while an expected element other than the unbounded
    pattern is still to be compared. *)
Lemma deepMatchArray_short (pre post xs1 : list Value) (v : Value) :
  comparedOk (deepMatch m) pre xs1 ->
  isUnbounded v = false ->
  deepMatchArray m (pre ++ v :: post) xs1 = Return ([], Some errArraysLenNotEqual).
Proof.
  intros H Hv. unfold deepMatchArray, deepMatchArrayOver.
  rewrite <- (app_nil_r xs1) at 1. rewrite deepMatchArray_loop by exact H.
  simpl. rewrite Hv, app_nil_r, Nat.eqb_refl. simpl.
  rewrite length_app, (comparedOk_length _ _ _ H). simpl.
  replace (Nat.eqb (List.length xs1 + S (List.length post)) (List.length xs1))
    with false by (symmetry; apply Nat.eqb_neq; lia).
  reflexivity.
Qed.

(** [expected] ends, without the unbounded pattern, before [actual]. *)
Lemma deepMatchArray_long (pre xs1 extra : list Value) (a : Value) :
  comparedOk (deepMatch m) pre xs1 ->
  deepMatchArray m pre (xs1 ++ a :: extra) = Return ([], Some errArraysLenNotEqual).
Proof.
  intro H. unfold deepMatchArray, deepMatchArrayOver.
  rewrite <- (app_nil_r pre) at 1. rewrite deepMatchArray_loop by exact H.
  simpl. rewrite length_app, (comparedOk_length _ _ _ H). simpl.
  replace (Nat.eqb (List.length xs1) (List.length xs1 + S (List.length extra)))
    with false by (symmetry; apply Nat.eqb_neq; lia).
  reflexivity.
Qed.

(** The first pair that does not match. *)
Lemma deepMatchArray_element (pre post xs1 extra : list Value) (v a : Value)
      (keyPath : Path) (err : error) :
  comparedOk (deepMatch m) pre xs1 ->
  isUnbounded v = false ->
  deepMatch m v a = Return (keyPath, Some err) ->
  deepMatchArray m (pre ++ v :: post) (xs1 ++ a :: extra)
  = Return ((keyPath ++ [SegInt (Z.of_nat (List.length pre))])%list, Some err).
Proof.
  intros H Hv Hf. unfold deepMatchArray, deepMatchArrayOver.
  rewrite deepMatchArray_loop by exact H.
  rewrite arrayLoop_step by exact Hv.
  rewrite Hf, (comparedOk_length _ _ _ H). reflexivity.
Qed.
End ArrayCases.

(** C2 (amended): let the pairs compared so far, [pre] against [xs1], all
    match, none of [pre] being the unbounded pattern.  If the next expected
    element is the unbounded pattern the match succeeds, whatever follows
    in [expected] and however many elements [extra] follow in [actual],
    none included.  If [actual] ends there while a further expected element
    that is not the unbounded pattern remains, or [expected] ends there
    while [actual] goes on, the match fails with "arrays sizes are not
    equal" and an empty path.  If the next pair fails, its error is
    returned with its index added to its path. *)
Theorem deepMatchArray_cases (m : JSONMatcher.t) (pre post xs1 extra : list Value) :
  comparedOk (deepMatch m) pre xs1 ->
  (forall u, isUnbounded u = true ->
             deepMatchArray m (pre ++ u :: post) (xs1 ++ extra) = Return ([], None)) /\
  (forall v, isUnbounded v = false ->
             deepMatchArray m (pre ++ v :: post) xs1
             = Return ([], Some errArraysLenNotEqual)) /\
  (forall a, deepMatchArray m pre (xs1 ++ a :: extra)
             = Return ([], Some errArraysLenNotEqual)) /\
  (forall v a keyPath err,
      isUnbounded v = false ->
      deepMatch m v a = Return (keyPath, Some err) ->
      deepMatchArray m (pre ++ v :: post) (xs1 ++ a :: extra)
      = Return ((keyPath ++ [SegInt (Z.of_nat (List.length pre))])%list, Some err)).
Proof.
  intro H. repeat split; intros.
  - apply deepMatchArray_unbounded; assumption.
  - apply deepMatchArray_short; assumption.
  - apply deepMatchArray_long; assumption.
  - apply deepMatchArray_element; assumption.
Qed.

Lemma deepMatchArray_cases_witness :
  deepMatchArray testMatcher
    [num 1; num 2; VString patternUnbounded] [num 1; num 2; num 3; num 4]
  = Return ([], None) /\
  deepMatchArray testMatcher [num 1; num 2; num 3] [num 1; num 2]
  = Return ([], Some errArraysLenNotEqual).
Proof.
  assert (H : comparedOk (deepMatch testMatcher) [num 1; num 2] [num 1; num 2]).
  { repeat constructor. }
  split.
  - exact (proj1 (deepMatchArray_cases testMatcher
                    [num 1; num 2] [] [num 1; num 2] [num 3; num 4] H)
             (VString patternUnbounded) eq_refl).
  - exact (proj1 (proj2 (deepMatchArray_cases testMatcher
                           [num 1; num 2] [] [num 1; num 2] [] H))
             (num 3) eq_refl).
Defined.

(** C2 as stated fails: with no unbounded pattern in [[1,2,3]] and an
    actual array [[9,2]] of another length, the result is not "arrays sizes
    are not equal" with an empty path but the mismatch of the first pair,
    at path [[0]]. *)
Lemma deepMatchArray_lengths_counterexample :
  existsb isUnbounded [num 1; num 2; num 3] = false /\
  List.length [num 1; num 2; num 3] <> List.length [num 9; num 2] /\
  deepMatchArray testMatcher [num 1; num 2; num 3] [num 9; num 2]
  = Return ([SegInt 0], Some errValuesNotEqual) /\
  JSONMatcher.Match testUnmarshal testMatcher "[1,2,3]" "[9,2]"
  = Return (false, Some "values are not equal at path: [0]") /\
  ~ (forall m expected actual,
        existsb isUnbounded expected = false ->
        List.length expected <> List.length actual ->
        deepMatchArray m expected actual = Return ([], Some errArraysLenNotEqual)).
Proof.
  repeat split; try reflexivity; try (simpl; lia).
  intro H.
  specialize (H testMatcher [num 1; num 2; num 3] [num 9; num 2] eq_refl).
  simpl in H. discriminate H. lia.
Qed.

(** ** Objects *)

Lemma mapLoop_passed (f : Value -> Value -> MatchResult)
      (actual pre : list (string * Value)) :
  Forall (entryOk f actual) pre ->
  forall unbounded rest,
    mapLoop f actual unbounded (pre ++ rest)
    = mapLoop f actual (unbounded || hasUnboundedKey pre) rest.
Proof.
  induction 1 as [| [k v1] pre Hok _ IH]; intros unbounded rest; simpl.
  - rewrite orb_false_r. reflexivity.
  - destruct (isUnbounded (VString k)) eqn:Eu.
    + rewrite IH, orb_true_r. reflexivity.
    + destruct Hok as [Hu | [v2 [Hk Hv]]]; simpl in *; [congruence |].
      rewrite Hk. destruct (f v1 v2) as [[keyPath [err |]] |]; try discriminate Hv.
      apply IH.
Qed.

Lemma mapLoop_missing (f : Value -> Value -> MatchResult)
      (actual rest : list (string * Value)) (k : string) (v1 : Value) :
  In (k, v1) rest ->
  isUnbounded (VString k) = false ->
  mapIndex k actual = None ->
  forall unbounded, exists r, mapLoop f actual unbounded rest = LoopReturn r.
Proof.
  intros Hin Hk Hnone.
  induction rest as [| [k' v'] rest IH]; [destruct Hin |].
  intro unbounded. simpl.
  destruct Hin as [Heq | Hin].
  - injection Heq as -> ->. rewrite Hk, Hnone. eauto.
  - destruct (isUnbounded (VString k')); [apply IH; exact Hin |].
    destruct (mapIndex k' actual) as [v2 |]; [| eauto].
    destruct (f v' v2) as [[keyPath [err |]] |]; eauto.
Qed.

Lemma mapLoop_unbounded_value (f : Value -> Value -> MatchResult)
      (actual pre post : list (string * Value)) (k : string) (x y : Value) :
  isUnbounded (VString k) = true ->
  forall unbounded,
    mapLoop f actual unbounded (pre ++ (k, x) :: post)
    = mapLoop f actual unbounded (pre ++ (k, y) :: post).
Proof.
  intro Hk. induction pre as [| [k' v'] pre IH]; intro unbounded; simpl.
  - rewrite Hk. reflexivity.
  - destruct (isUnbounded (VString k')); [apply IH |].
    destruct (mapIndex k' actual) as [v2 |]; [| reflexivity].
    destruct (f v' v2) as [[keyPath [err |]] |]; auto.
Qed.

Section MapCases.
Variable m : JSONMatcher.t.

(** Every entry passes and one of the keys is the unbounded pattern. *)
Lemma deepMatchMap_unbounded (expected actual : list (string * Value)) :
  hasUnboundedKey expected = true ->
  Forall (entryOk (deepMatch m) actual) expected ->
  deepMatchMap m expected actual = Return ([], None).
Proof.
  intros Hu Hall. unfold deepMatchMap, deepMatchMapOver.
  rewrite <- (app_nil_r expected) at 1.
  rewrite mapLoop_passed by exact Hall. simpl. rewrite Hu. reflexivity.
Qed.

(** The first entry that does not pass is a key missing from [actual]. *)
Lemma deepMatchMap_missing_first (pre post actual : list (string * Value))
      (k : string) (v1 : Value) :
  Forall (entryOk (deepMatch m) actual) pre ->
  isUnbounded (VString k) = false ->
  mapIndex k actual = None ->
  deepMatchMap m (pre ++ (k, v1) :: post) actual
  = Return ([], Some (errExpectedKey k)).
Proof.
  intros Hall Hk Hnone. unfold deepMatchMap, deepMatchMapOver.
  rewrite mapLoop_passed by exact Hall. simpl. rewrite Hk, Hnone. reflexivity.
Qed.

(** The first entry that does not pass is a value that does not match. *)
Lemma deepMatchMap_value_first (pre post actual : list (string * Value))
      (k : string) (v1 v2 : Value) (keyPath : Path) (err : error) :
  Forall (entryOk (deepMatch m) actual) pre ->
  isUnbounded (VString k) = false ->
  mapIndex k actual = Some v2 ->
  deepMatch m v1 v2 = Return (keyPath, Some err) ->
  deepMatchMap m (pre ++ (k, v1) :: post) actual
  = Return ((keyPath ++ [SegString k])%list, Some err).
Proof.
  intros Hall Hk Hsome Hf. unfold deepMatchMap, deepMatchMapOver.
  rewrite mapLoop_passed by exact Hall. simpl. rewrite Hk, Hsome, Hf. reflexivity.
Qed.

(** The first entry that does not pass is a value whose comparison
    panics. *)
Lemma deepMatchMap_value_panics (pre post actual : list (string * Value))
      (k : string) (v1 v2 : Value) :
  Forall (entryOk (deepMatch m) actual) pre ->
  isUnbounded (VString k) = false ->
  mapIndex k actual = Some v2 ->
  deepMatch m v1 v2 = Panic ->
  deepMatchMap m (pre ++ (k, v1) :: post) actual = Panic.
Proof.
  intros Hall Hk Hsome Hf. unfold deepMatchMap, deepMatchMapOver.
  rewrite mapLoop_passed by exact Hall. simpl. rewrite Hk, Hsome, Hf. reflexivity.
Qed.

(** A key missing from [actual] never lets the match succeed. *)
Lemma deepMatchMap_missing_fails (expected actual : list (string * Value))
      (k : string) (v1 : Value) :
  In (k, v1) expected ->
  isUnbounded (VString k) = false ->
  mapIndex k actual = None ->
  succeeded (deepMatchMap m expected actual) = false.
Proof.
  intros Hin Hk Hnone. unfold deepMatchMap, deepMatchMapOver.
  destruct (mapLoop_missing (deepMatch m) actual expected k v1 Hin Hk Hnone false)
    as [r Hr].
  rewrite Hr. exact (mapLoop_return_failed _ _ _ _ _ Hr).
Qed.

Lemma deepMatchMap_unbounded_value (pre post actual : list (string * Value))
      (k : string) (x y : Value) :
  isUnbounded (VString k) = true ->
  deepMatchMap m (pre ++ (k, x) :: post) actual
  = deepMatchMap m (pre ++ (k, y) :: post) actual.
Proof.
  intro Hk. unfold deepMatchMap, deepMatchMapOver.
  rewrite (mapLoop_unbounded_value _ _ _ _ _ x y Hk).
  rewrite !length_app. reflexivity.
Qed.
End MapCases.

(** C1 (amended): let [expected] have the unbounded pattern among its
    keys.  If every other entry has its key in [actual] with a matching
    value, the match succeeds whatever further keys [actual] has.  If a key
    of [expected] other than the unbounded pattern is missing from
    [actual], the match never succeeds, and when every entry visited before
    that key passes the result is the error [expected key "<key>"] with
    an empty path.  An entry whose key is in [actual] with a value that
    does not match, visited when every entry before it passes, ends the
    comparison with the error of its value and its key added to the path,
    and a panic of that comparison is a panic of the whole.  The value
    stored under the unbounded pattern does not influence the result. *)
Theorem deepMatchMap_unbounded_cases
  (m : JSONMatcher.t) (expected actual : list (string * Value)) :
  hasUnboundedKey expected = true ->
  (Forall (entryOk (deepMatch m) actual) expected ->
   deepMatchMap m expected actual = Return ([], None)) /\
  (forall k v1,
      In (k, v1) expected ->
      isUnbounded (VString k) = false ->
      mapIndex k actual = None ->
      succeeded (deepMatchMap m expected actual) = false /\
      (forall pre post,
          expected = (pre ++ (k, v1) :: post)%list ->
          Forall (entryOk (deepMatch m) actual) pre ->
          deepMatchMap m expected actual = Return ([], Some (errExpectedKey k)))) /\
  (forall pre post k v1 v2,
      expected = (pre ++ (k, v1) :: post)%list ->
      Forall (entryOk (deepMatch m) actual) pre ->
      isUnbounded (VString k) = false ->
      mapIndex k actual = Some v2 ->
      (forall keyPath err,
          deepMatch m v1 v2 = Return (keyPath, Some err) ->
          deepMatchMap m expected actual
          = Return ((keyPath ++ [SegString k])%list, Some err)) /\
      (deepMatch m v1 v2 = Panic -> deepMatchMap m expected actual = Panic)) /\
  (forall pre post k x y,
      expected = (pre ++ (k, x) :: post)%list ->
      isUnbounded (VString k) = true ->
      deepMatchMap m (pre ++ (k, y) :: post) actual = deepMatchMap m expected actual).
Proof.
  intro Hu. split; [| split; [| split]].
  - apply deepMatchMap_unbounded. exact Hu.
  - intros k v1 Hin Hk Hnone. split.
    + exact (deepMatchMap_missing_fails m expected actual k v1 Hin Hk Hnone).
    + intros pre post -> Hpre. apply deepMatchMap_missing_first; assumption.
  - intros pre post k v1 v2 -> Hpre Hk Hsome. split.
    + intros keyPath err Hf. apply deepMatchMap_value_first with (v2 := v2); assumption.
    + intro Hp. apply deepMatchMap_value_panics with (v2 := v2); assumption.
  - intros pre post k x y -> Hk. apply deepMatchMap_unbounded_value. exact Hk.
Qed.

Lemma deepMatchMap_unbounded_cases_witness :
  deepMatchMap testMatcher
    [("id", num 1); (patternUnbounded, VString "")]
    [("id", num 1); ("name", VString "x")]
  = Return ([], None) /\
  deepMatchMap testMatcher
    [("id", num 1); (patternUnbounded, VString "")]
    [("name", VString "x")]
  = Return ([], Some (errExpectedKey "id")) /\
  deepMatchMap testMatcher abUnbounded onlyA
  = Return ([SegString "a"], Some errValuesNotEqual).
Proof.
  split; [| split].
  - apply (deepMatchMap_unbounded_cases testMatcher
             [("id", num 1); (patternUnbounded, VString "")]
             [("id", num 1); ("name", VString "x")] eq_refl).
    apply Forall_cons; [| apply Forall_cons; [| apply Forall_nil]].
    + right. exists (num 1). split; reflexivity.
    + left. reflexivity.
  - refine (proj2 (proj1 (proj2 (deepMatchMap_unbounded_cases testMatcher
                     [("id", num 1); (patternUnbounded, VString "")]
                     [("name", VString "x")] eq_refl))
                     "id" (num 1) (or_introl eq_refl) eq_refl eq_refl)
              [] [(patternUnbounded, VString "")] eq_refl (Forall_nil _)).
  - exact (proj1 (proj1 (proj2 (proj2 (deepMatchMap_unbounded_cases testMatcher
                     abUnbounded onlyA eq_refl)))
                     [] [("b", num 2); (patternUnbounded, VString "")]
                     "a" (num 1) (num 2) eq_refl (Forall_nil _) eq_refl eq_refl)
             [] errValuesNotEqual eq_refl).
Defined.

(** C1 as stated fails: the expected object has the unbounded pattern and
    the key b, which the actual object lacks, yet when the entry a, whose
    value differs, is visited first the result is the mismatch at a and not
    [expected key "b"]; visited in the other order the same documents
    give [expected key "b"]. *)
Lemma deepMatchMap_missing_key_counterexample :
  hasUnboundedKey abUnbounded = true /\
  In ("b", num 2) abUnbounded /\
  mapIndex "b" onlyA = None /\
  deepMatchMap testMatcher abUnbounded onlyA
  = Return ([SegString "a"], Some errValuesNotEqual) /\
  deepMatchMap testMatcher baUnbounded onlyA
  = Return ([], Some (errExpectedKey "b")) /\
  ~ (forall m expected actual k v1,
        hasUnboundedKey expected = true ->
        In (k, v1) expected ->
        isUnbounded (VString k) = false ->
        mapIndex k actual = None ->
        exists path, deepMatchMap m expected actual
                     = Return (path, Some (errExpectedKey k))).
Proof.
  repeat split; try reflexivity.
  - simpl. auto.
  - intro H.
    destruct (H testMatcher abUnbounded onlyA "b" (num 2) eq_refl
                (or_intror (or_introl eq_refl)) eq_refl eq_refl) as [path Hp].
    discriminate Hp.
Qed.

(** * Further properties of the package *)

(** ** The value matchers *)

Lemma chain_agrees (ms : list ValueMatcher.t) :
  Forall agrees ms -> agrees (ChainMatcher.New ms).
Proof.
  intros Hall p v. simpl.
  induction Hall as [| c ms Hc _ IH]; simpl.
  - split; discriminate.
  - destruct (ValueMatcher.CanMatch c p); simpl; [apply Hc | exact IH].
Qed.

Lemma default_agrees (uuidParse emailMatchString : string -> bool) :
  Forall agrees (defaultMatchers uuidParse emailMatchString).
Proof.
  unfold defaultMatchers. repeat apply Forall_cons; try apply Forall_nil;
    intros p v; simpl.
  - destruct v; simpl; split; congruence.
  - destruct v; simpl; split; congruence.
  - destruct v; simpl; split; congruence.
  - destruct v; simpl; split; congruence.
  - unfold UUIDMatcher.Match.
    destruct v; simpl; try (split; congruence).
    destruct (uuidParse s); simpl; split; congruence.
  - unfold EmailMatcher.Match.
    destruct v; simpl; try (split; congruence).
    destruct (emailMatchString s); simpl; split; congruence.
  - split; reflexivity.
Qed.

(** X1: the boolean and the error of [Match] agree for each of the seven
    matchers of the default chain, a chain of matchers for which they agree
    is again such a matcher (on exhaustion it returns [false] with its
    error), and so is the default chain. *)
Theorem matchers_boolean_agrees_with_error
  (uuidParse emailMatchString : string -> bool) (ms : list ValueMatcher.t) :
  Forall agrees (defaultMatchers uuidParse emailMatchString) /\
  (Forall agrees ms -> agrees (ChainMatcher.New ms)) /\
  agrees (valueMatcher (NewDefaultJSONMatcher uuidParse emailMatchString)).
Proof.
  split; [apply default_agrees |]. split; [apply chain_agrees |].
  apply chain_agrees. apply default_agrees.
Qed.

Lemma matchers_boolean_agrees_with_error_witness :
  agrees (ChainMatcher.New numberStringChain).
Proof.
  apply (proj1 (proj2 (matchers_boolean_agrees_with_error
                         (fun _ => false) (fun _ => false) numberStringChain))).
  unfold numberStringChain.
  repeat apply Forall_cons; try apply Forall_nil;
    intros p v; simpl; destruct v; simpl; split; congruence.
Defined.

Lemma default_CanMatch (uuidParse emailMatchString : string -> bool) (p : Value) :
  ChainMatcher.CanMatch (defaultMatchers uuidParse emailMatchString) p = true <->
  exists s, p = VString s /\ In s defaultPatterns.
Proof.
  unfold defaultMatchers, defaultPatterns. split.
  - intro H. apply chain_CanMatch_exists in H. destruct H as [c [Hin Hc]].
    destruct p; simpl in Hin;
      repeat (destruct Hin as [<- | Hin]; [simpl in Hc; try discriminate Hc |]);
      try contradiction;
      apply String.eqb_eq in Hc; subst s; eexists; split; try reflexivity;
      simpl; auto 10.
  - intros [s [-> Hin]]. simpl in Hin.
    repeat (destruct Hin as [<- | Hin]; [reflexivity |]). contradiction.
Qed.

(** X2: the default chain recognizes exactly the seven pattern strings; a
    value of another type, another string and in particular the unbounded
    pattern are not recognized, so that the engine compares a scalar
    "@...@" literally. *)
Theorem default_chain_recognizes_its_patterns
  (uuidParse emailMatchString : string -> bool) (p actual : Value) :
  (ValueMatcher.CanMatch (valueMatcher (NewDefaultJSONMatcher uuidParse emailMatchString)) p
   = true <-> exists s, p = VString s /\ In s defaultPatterns) /\
  ValueMatcher.CanMatch (valueMatcher (NewDefaultJSONMatcher uuidParse emailMatchString))
    (VString patternUnbounded) = false /\
  deepMatch (NewDefaultJSONMatcher uuidParse emailMatchString)
    (VString patternUnbounded) actual
  = match actual with
    | VString t =>
        if String.eqb patternUnbounded t then Return ([], None)
        else Return ([], Some errValuesNotEqual)
    | _ => Return ([], Some errTypesNotEqual)
    end.
Proof.
  split; [apply default_CanMatch |]. split; [reflexivity |].
  apply deepMatch_unrecognized_string. reflexivity.
Qed.

(** X3: through the engine with the default matcher, each pattern of the
    default chain is checked by its own matcher, whatever the type of the
    actual value: "@string@" accepts the strings, "@number@" the numbers,
    "@bool@" the booleans, "@array@" the slices, "@uuid@" the strings that
    [uuid.Parse] accepts, "@email@" the strings the regular expression
    matches and "@wildcard@" every value; a rejection is the matcher's own
    error with an empty path. *)
Theorem default_patterns_through_engine
  (uuidParse emailMatchString : string -> bool) (actual : Value) :
  deepMatch (NewDefaultJSONMatcher uuidParse emailMatchString) (VString patternString) actual
  = Return ([], match actual with
                | VString _ => None
                | _ => Some StringMatcher.errNotString
                end) /\
  deepMatch (NewDefaultJSONMatcher uuidParse emailMatchString) (VString patternNumber) actual
  = Return ([], match actual with
                | VFloat64 _ => None
                | _ => Some NumberMatcher.errNotNumber
                end) /\
  deepMatch (NewDefaultJSONMatcher uuidParse emailMatchString) (VString patternBool) actual
  = Return ([], match actual with
                | VBool _ => None
                | _ => Some BoolMatcher.errNotBool
                end) /\
  deepMatch (NewDefaultJSONMatcher uuidParse emailMatchString) (VString patternArray) actual
  = Return ([], match actual with
                | VSlice _ => None
                | _ => Some ArrayMatcher.errNotArray
                end) /\
  deepMatch (NewDefaultJSONMatcher uuidParse emailMatchString) (VString patternUUID) actual
  = Return ([], match actual with
                | VString s => if uuidParse s then None else Some UUIDMatcher.errNotUUID
                | _ => Some UUIDMatcher.errNotUUID
                end) /\
  deepMatch (NewDefaultJSONMatcher uuidParse emailMatchString) (VString patternEmail) actual
  = Return ([], match actual with
                | VString s =>
                    if emailMatchString s then None else Some EmailMatcher.errNotEmail
                | _ => Some EmailMatcher.errNotEmail
                end) /\
  deepMatch (NewDefaultJSONMatcher uuidParse emailMatchString) (VString patternWildcard) actual
  = Return ([], None).
Proof.
  repeat split;
    (rewrite deepMatch_recognized by reflexivity;
     rewrite dispatch_leaf by reflexivity;
     rewrite matchValue_recognized by reflexivity;
     simpl; unfold UUIDMatcher.Match, EmailMatcher.Match;
     destruct actual; try reflexivity).
  - destruct (uuidParse s); reflexivity.
  - destruct (emailMatchString s); reflexivity.
Qed.

(** X4: a pattern document that is the wildcard's pattern matches every
    actual document that decodes, scalar, slice or map, for a wildcard
    matcher of any pattern string. *)
Theorem wildcard_root_matches_everything
  (Unmarshal : string -> option Value) (pattern expectedJSON actualJSON : string)
  (actual : Value) :
  Unmarshal expectedJSON = Some (VString pattern) ->
  Unmarshal actualJSON = Some actual ->
  deepMatch (NewJSONMatcher (WildcardMatcher.New pattern)) (VString pattern) actual
  = Return ([], None) /\
  JSONMatcher.Match Unmarshal (NewJSONMatcher (WildcardMatcher.New pattern))
    expectedJSON actualJSON
  = Return (true, None).
Proof.
  intros He Ha.
  assert (Hd : deepMatch (NewJSONMatcher (WildcardMatcher.New pattern))
                 (VString pattern) actual = Return ([], None)).
  { assert (Hc : ValueMatcher.CanMatch
                   (valueMatcher (NewJSONMatcher (WildcardMatcher.New pattern)))
                   (VString pattern) = true) by apply String.eqb_refl.
    rewrite deepMatch_recognized by exact Hc.
    rewrite dispatch_leaf by reflexivity.
    rewrite matchValue_recognized by exact Hc. reflexivity. }
  split; [exact Hd |].
  unfold JSONMatcher.Match. rewrite He, Ha, Hd. reflexivity.
Qed.

Lemma wildcard_root_matches_everything_witness :
  JSONMatcher.Match testUnmarshal testMatcher (quoted patternWildcard) (personText "work")
  = Return (true, None).
Proof.
  exact (proj2 (wildcard_root_matches_everything testUnmarshal patternWildcard
                  (quoted patternWildcard) (personText "work") (person "work")
                  eq_refl eq_refl)).
Defined.

(** X5: a chain used as a constituent of a chain behaves as its
    constituents written in its place: nesting chains does not change
    which matcher is used. *)
Theorem chain_nesting_flattens
  (before inner after : list ValueMatcher.t) (p v : Value) :
  ChainMatcher.CanMatch (before ++ ChainMatcher.New inner :: after) p
  = ChainMatcher.CanMatch (before ++ inner ++ after) p /\
  ChainMatcher.Match (before ++ ChainMatcher.New inner :: after) p v
  = ChainMatcher.Match (before ++ inner ++ after) p v.
Proof.
  induction before as [| b before IH]; simpl.
  - induction inner as [| c inner IHi]; simpl; [auto |].
    destruct (ValueMatcher.CanMatch c p); simpl; [auto |]. exact IHi.
  - destruct (ValueMatcher.CanMatch b p); simpl; [auto | exact IH].
Qed.

(** X6: [Match] returns [true] with a nil error or [false] with an error,
    never another pair, whatever the configured matcher returns; it returns
    [true] exactly when both texts decode and the engine finds no
    mismatch. *)
Theorem match_result_agrees
  (Unmarshal : string -> option Value) (m : JSONMatcher.t)
  (expectedJSON actualJSON : string) :
  (forall b err,
      JSONMatcher.Match Unmarshal m expectedJSON actualJSON = Return (b, err) ->
      (b = true /\ err = None) \/ (b = false /\ err <> None)) /\
  (JSONMatcher.Match Unmarshal m expectedJSON actualJSON = Return (true, None) <->
   exists expected actual,
     Unmarshal expectedJSON = Some expected /\
     Unmarshal actualJSON = Some actual /\
     succeeded (deepMatch m expected actual) = true).
Proof.
  unfold JSONMatcher.Match.
  destruct (Unmarshal expectedJSON) as [expected |].
  2:{ split.
      - intros b err H. injection H as <- <-. right. split; [reflexivity | discriminate].
      - split; [discriminate | intros [e [a [H _]]]; discriminate H]. }
  destruct (Unmarshal actualJSON) as [actual |].
  2:{ split.
      - intros b err H. injection H as <- <-. right. split; [reflexivity | discriminate].
      - split; [discriminate | intros [e [a [_ [H _]]]]; discriminate H]. }
  destruct (deepMatch m expected actual) as [[path [e |]] |] eqn:Hd.
  - split.
    + intros b err H. destruct (Nat.ltb 0 (List.length path));
        injection H as <- <-; right; split; (reflexivity || discriminate).
    + split.
      * destruct (Nat.ltb 0 (List.length path)); discriminate.
      * intros [e' [a' [He [Ha Hs]]]]. injection He as <-. injection Ha as <-.
        rewrite Hd in Hs. discriminate Hs.
  - split.
    + intros b err H. injection H as <- <-. left. auto.
    + split; [| reflexivity]. intros _. exists expected, actual.
      rewrite Hd. auto.
  - split; [discriminate |]. split; [discriminate |].
    intros [e' [a' [He [Ha Hs]]]]. injection He as <-. injection Ha as <-.
    rewrite Hd in Hs. discriminate Hs.
Qed.

(** ** Objects: when the comparison succeeds *)

Lemma mapLoop_done (f : Value -> Value -> MatchResult)
      (actual rest : list (string * Value)) :
  forall unbounded unbounded',
    mapLoop f actual unbounded rest = LoopDone unbounded' ->
    Forall (entryOk f actual) rest /\
    unbounded' = unbounded || hasUnboundedKey rest.
Proof.
  induction rest as [| [k v1] rest IH]; intros unbounded unbounded'; simpl.
  - intro H. injection H as <-. rewrite orb_false_r. auto.
  - destruct (isUnbounded (VString k)) eqn:Eu.
    + intro H. destruct (IH _ _ H) as [Hall ->].
      split; [| rewrite orb_true_r; reflexivity].
      apply Forall_cons; [left; exact Eu | exact Hall].
    + destruct (mapIndex k actual) as [v2 |] eqn:Ek; [| discriminate].
      destruct (f v1 v2) as [[keyPath [err |]] |] eqn:Ef; try discriminate.
      intro H. destruct (IH _ _ H) as [Hall ->]. split; [| reflexivity].
      apply Forall_cons; [| exact Hall].
      right. exists v2. simpl. rewrite Ef. auto.
Qed.

Lemma deepMatchMap_succeeded_iff (m : JSONMatcher.t)
      (expected actual : list (string * Value)) :
  succeeded (deepMatchMap m expected actual) = true <->
  Forall (entryOk (deepMatch m) actual) expected /\
  (hasUnboundedKey expected = true \/ List.length expected = List.length actual).
Proof.
  unfold deepMatchMap, deepMatchMapOver. split.
  - destruct (mapLoop (deepMatch m) actual false expected) as [unbounded | r] eqn:El.
    + destruct (mapLoop_done _ _ _ _ _ El) as [Hall Hu]. simpl in Hu. subst unbounded.
      destruct (hasUnboundedKey expected); simpl; [auto |].
      destruct (Nat.eqb (List.length expected) (List.length actual)) eqn:En;
        simpl; [| discriminate].
      apply Nat.eqb_eq in En. auto.
    + intro Hs. rewrite (mapLoop_return_failed _ _ _ _ _ El) in Hs. discriminate Hs.
  - intros [Hall Hcount].
    rewrite <- (app_nil_r expected) at 1.
    rewrite mapLoop_passed by exact Hall. simpl.
    destruct Hcount as [-> | ->]; [reflexivity |].
    rewrite Nat.eqb_refl, andb_false_r. reflexivity.
Qed.

Lemma hasUnboundedKey_permutation (l l' : list (string * Value)) :
  Permutation l l' -> hasUnboundedKey l = hasUnboundedKey l'.
Proof.
  unfold hasUnboundedKey.
  induction 1 as [| x l l' _ IH | x y l | l l' l'' _ IH1 _ IH2]; simpl.
  - reflexivity.
  - rewrite IH. reflexivity.
  - destruct (isUnbounded (VString (fst x))), (isUnbounded (VString (fst y))); reflexivity.
  - congruence.
Qed.

(** X7: the comparison of two objects succeeds exactly when every entry of
    [expected] either has the unbounded pattern as key or has its key in
    [actual] with a matching value, and the unbounded pattern is a key of
    [expected] or both objects have as many entries.  Hence the order in
    which the entries of [expected] are visited decides at most which
    error is returned, never whether the match succeeds. *)
Theorem deepMatchMap_success_order_free (m : JSONMatcher.t)
        (expected expected' actual : list (string * Value)) :
  (succeeded (deepMatchMap m expected actual) = true <->
   Forall (entryOk (deepMatch m) actual) expected /\
   (hasUnboundedKey expected = true \/ List.length expected = List.length actual)) /\
  (Permutation expected expected' ->
   succeeded (deepMatchMap m expected actual)
   = succeeded (deepMatchMap m expected' actual)).
Proof.
  split; [apply deepMatchMap_succeeded_iff |].
  intro Hperm. apply Bool.eq_true_iff_eq.
  rewrite !deepMatchMap_succeeded_iff.
  rewrite (hasUnboundedKey_permutation _ _ Hperm), (Permutation_length Hperm).
  split; intros [Hall Hc]; (split; [| exact Hc]).
  - exact (Permutation_Forall Hperm Hall).
  - exact (Permutation_Forall (Permutation_sym Hperm) Hall).
Qed.

Lemma deepMatchMap_success_order_free_witness :
  succeeded (deepMatchMap testMatcher abUnbounded onlyA)
  = succeeded (deepMatchMap testMatcher baUnbounded onlyA).
Proof.
  apply (proj2 (deepMatchMap_success_order_free testMatcher abUnbounded baUnbounded onlyA)).
  unfold abUnbounded, baUnbounded. apply perm_swap.
Defined.

Lemma distinct_NoDup (ks : list string) : distinct ks = true <-> NoDup ks.
Proof.
  induction ks as [| k ks IH]; simpl.
  - split; [constructor | reflexivity].
  - rewrite andb_true_iff, negb_true_iff, IH. split.
    + intros [Hfresh Hnd]. constructor; [| exact Hnd].
      intro Hin. assert (existsb (String.eqb k) ks = true); [| congruence].
      apply existsb_exists. exists k. split; [exact Hin | apply String.eqb_refl].
    + intro Hnd. inversion Hnd as [| ? ? Hnotin Hnd']; subst. split; [| exact Hnd'].
      destruct (existsb (String.eqb k) ks) eqn:E; [| reflexivity].
      apply existsb_exists in E. destruct E as [k' [Hin Heq]].
      apply String.eqb_eq in Heq. subst k'. contradiction.
Qed.

Lemma mapIndex_Some_In (k : string) (v : Value) (kvs : list (string * Value)) :
  mapIndex k kvs = Some v -> In (k, v) kvs.
Proof.
  induction kvs as [| [k' v'] kvs IH]; simpl; [discriminate |].
  destruct (String.eqb k k') eqn:E.
  - apply String.eqb_eq in E. subst k'. intro H. injection H as ->. auto.
  - auto.
Qed.

Lemma mapIndex_None_iff (k : string) (kvs : list (string * Value)) :
  mapIndex k kvs = None <-> ~ In k (map fst kvs).
Proof.
  induction kvs as [| [k' v'] kvs IH]; simpl.
  - split; [intros _ [] | reflexivity].
  - destruct (String.eqb k k') eqn:E.
    + apply String.eqb_eq in E. subst k'. split; [discriminate | intro H; elim H; auto].
    + apply String.eqb_neq in E. rewrite IH. split.
      * intros Hn [Heq | Hin]; [congruence | contradiction].
      * intros Hn Hin. apply Hn. auto.
Qed.

Lemma entries_present (f : Value -> Value -> MatchResult)
      (expected actual : list (string * Value)) :
  hasUnboundedKey expected = false ->
  Forall (entryOk f actual) expected ->
  incl (map fst expected) (map fst actual).
Proof.
  intros Hu Hall k Hin. apply in_map_iff in Hin. destruct Hin as [[k' v1] [Hk Hin]].
  simpl in Hk. subst k'.
  rewrite Forall_forall in Hall. destruct (Hall _ Hin) as [Hunb | [v2 [Hidx _]]].
  - unfold hasUnboundedKey in Hu.
    assert (existsb (fun kv => isUnbounded (VString (fst kv))) expected = true);
      [| congruence].
    apply existsb_exists. exists (k, v1). auto.
  - simpl in Hidx. apply mapIndex_Some_In in Hidx.
    change k with (fst (k, v2)). apply in_map. exact Hidx.
Qed.

(** X8: for an [expected] object without the unbounded pattern and with
    distinct keys, a successful comparison means that [actual] has exactly
    the keys of [expected]: counting the entries is enough to exclude an
    unexpected key. *)
Theorem deepMatchMap_success_same_keys (m : JSONMatcher.t)
        (expected actual : list (string * Value)) :
  distinct (map fst expected) = true ->
  hasUnboundedKey expected = false ->
  succeeded (deepMatchMap m expected actual) = true ->
  forall k, In k (map fst actual) <-> In k (map fst expected).
Proof.
  intros Hd Hu Hs. apply deepMatchMap_succeeded_iff in Hs.
  destruct Hs as [Hall [Hc | Hlen]]; [congruence |].
  pose proof (entries_present _ _ _ Hu Hall) as Hincl.
  apply distinct_NoDup in Hd.
  assert (Hback : incl (map fst actual) (map fst expected)).
  { apply NoDup_length_incl; [exact Hd | | exact Hincl].
    rewrite !length_map. lia. }
  intro k. split; [apply Hback | apply Hincl].
Qed.

Lemma deepMatchMap_success_same_keys_witness :
  In "name" (map fst [("name", VString "x"); ("id", num 1)]) <->
  In "name" (map fst [("id", num 1); ("name", VString "x")]).
Proof.
  exact (deepMatchMap_success_same_keys testMatcher
           [("id", num 1); ("name", VString "x")]
           [("name", VString "x"); ("id", num 1)]
           eq_refl eq_refl eq_refl "name").
Defined.

(** X9: when two objects with distinct keys fail with "unexpected key"
    and an empty path, every key of [expected] is in [actual] with a
    matching value and [actual] has a key that [expected] lacks. *)
Theorem deepMatchMap_unexpected_key_exists (m : JSONMatcher.t)
        (expected actual : list (string * Value)) :
  distinct (map fst expected) = true ->
  distinct (map fst actual) = true ->
  deepMatchMap m expected actual = Return ([], Some errUnexpectedKey) ->
  Forall (entryOk (deepMatch m) actual) expected /\
  hasUnboundedKey expected = false /\
  exists k, In k (map fst actual) /\ ~ In k (map fst expected).
Proof.
  intros Hde Hda. unfold deepMatchMap, deepMatchMapOver.
  destruct (mapLoop (deepMatch m) actual false expected) as [unbounded | r] eqn:El.
  - destruct (mapLoop_done _ _ _ _ _ El) as [Hall Hu]. simpl in Hu. subst unbounded.
    destruct (hasUnboundedKey expected) eqn:Eu; simpl; [discriminate |].
    destruct (Nat.eqb (List.length expected) (List.length actual)) eqn:En;
      simpl; [discriminate |].
    intros _. split; [exact Hall |]. split; [reflexivity |].
    apply Nat.eqb_neq in En.
    pose proof (entries_present _ _ _ Eu Hall) as Hincl.
    apply distinct_NoDup in Hde. apply distinct_NoDup in Hda.
    destruct (existsb (fun k => negb (existsb (String.eqb k) (map fst expected)))
                      (map fst actual)) eqn:Ex.
    + apply existsb_exists in Ex. destruct Ex as [k [Hin Hk]].
      exists k. split; [exact Hin |]. intro Hin'.
      apply negb_true_iff in Hk.
      assert (existsb (String.eqb k) (map fst expected) = true); [| congruence].
      apply existsb_exists. exists k. split; [exact Hin' | apply String.eqb_refl].
    + exfalso.
      assert (Hback : incl (map fst actual) (map fst expected)).
      { intros k Hin.
        destruct (existsb (String.eqb k) (map fst expected)) eqn:Ek.
        - apply existsb_exists in Ek. destruct Ek as [k' [Hin' Heq]].
          apply String.eqb_eq in Heq. subst k'. exact Hin'.
        - assert (existsb (fun k => negb (existsb (String.eqb k) (map fst expected)))
                          (map fst actual) = true); [| congruence].
          apply existsb_exists. exists k. rewrite Ek. auto. }
      pose proof (NoDup_incl_length Hde Hincl) as H1.
      pose proof (NoDup_incl_length Hda Hback) as H2.
      rewrite !length_map in H1, H2. lia.
  - intros ->.
    destruct (mapLoop_return_shape _ _ _ _ _ _ El)
      as [[_ [k [v1 [_ [_ He]]]]] | [k [v1 [v2 [kp [_ [_ [_ Hp]]]]]]]].
    + discriminate He.
    + destruct kp; discriminate Hp.
Qed.

Lemma deepMatchMap_unexpected_key_exists_witness :
  exists k, In k (map fst [("id", num 1); ("name", VString "John Smith")]) /\
            ~ In k (map fst [("id", num 1)]).
Proof.
  apply (deepMatchMap_unexpected_key_exists testMatcher
           [("id", num 1)] [("id", num 1); ("name", VString "John Smith")]);
    reflexivity.
Defined.

(** ** Objects: the order of the entries of [actual] *)

Lemma mapIndex_permutation (k : string) (xs xs' : list (string * Value)) :
  distinct (map fst xs) = true ->
  Permutation xs xs' ->
  mapIndex k xs = mapIndex k xs'.
Proof.
  intros Hd Hperm.
  assert (Hd' : distinct (map fst xs') = true).
  { apply distinct_NoDup. apply distinct_NoDup in Hd.
    exact (Permutation_NoDup (Permutation_map fst Hperm) Hd). }
  destruct (mapIndex k xs) as [v |] eqn:E.
  - symmetry. apply mapIndex_distinct; [exact Hd' |].
    apply (Permutation_in _ Hperm). apply mapIndex_Some_In. exact E.
  - symmetry. apply mapIndex_None_iff. apply mapIndex_None_iff in E.
    intro Hin. apply E.
    exact (Permutation_in _ (Permutation_sym (Permutation_map fst Hperm)) Hin).
Qed.

Lemma mapLoop_actual_ext (f : Value -> Value -> MatchResult)
      (xs xs' rest : list (string * Value)) :
  (forall k, mapIndex k xs = mapIndex k xs') ->
  forall unbounded, mapLoop f xs unbounded rest = mapLoop f xs' unbounded rest.
Proof.
  intro Hidx. induction rest as [| [k v1] rest IH]; intro unbounded; simpl;
    [reflexivity |].
  destruct (isUnbounded (VString k)); [apply IH |].
  rewrite <- Hidx. destruct (mapIndex k xs) as [v2 |]; [| reflexivity].
  destruct (f v1 v2) as [[keyPath [err |]] |]; auto.
Qed.

(** X10: the order of the entries of the actual object, whose keys are
    distinct, has no influence on the result of the comparison with an
    expected object, error and path included. *)
Theorem deepMatchMap_actual_order_free (m : JSONMatcher.t)
        (expected actual actual' : list (string * Value)) :
  distinct (map fst actual) = true ->
  Permutation actual actual' ->
  deepMatchMap m expected actual = deepMatchMap m expected actual' /\
  deepMatch m (VMap expected) (VMap actual) = deepMatch m (VMap expected) (VMap actual').
Proof.
  intros Hd Hperm.
  assert (H : deepMatchMap m expected actual = deepMatchMap m expected actual').
  { unfold deepMatchMap, deepMatchMapOver.
    rewrite (mapLoop_actual_ext _ actual actual' expected
               (fun k => mapIndex_permutation k _ _ Hd Hperm)).
    rewrite (Permutation_length Hperm). reflexivity. }
  split; [exact H |].
  rewrite !deepMatch_same_type by reflexivity. exact H.
Qed.

Lemma deepMatchMap_actual_order_free_witness :
  deepMatchMap testMatcher [("id", num 123); ("name", VString "John Smith")]
    [("id", num 123); ("name", VString "John Smith")]
  = deepMatchMap testMatcher [("id", num 123); ("name", VString "John Smith")]
      [("name", VString "John Smith"); ("id", num 123)].
Proof.
  apply (deepMatchMap_actual_order_free testMatcher
           [("id", num 123); ("name", VString "John Smith")]
           [("id", num 123); ("name", VString "John Smith")]
           [("name", VString "John Smith"); ("id", num 123)]).
  - reflexivity.
  - apply perm_swap.
Defined.

(** ** Arrays: when the comparison succeeds and where it fails *)

Lemma arrayLoop_exit (f : Value -> Value -> MatchResult) (rest : list Value) :
  forall done remaining,
    match arrayLoop f (done ++ remaining) (List.length done) rest with
    | LoopDone true =>
        exists pre u post xs1 extra,
          rest = (pre ++ u :: post)%list /\ remaining = (xs1 ++ extra)%list /\
          comparedOk f pre xs1 /\ isUnbounded u = true
    | LoopDone false =>
        exists pre tail xs1 extra,
          rest = (pre ++ tail)%list /\ remaining = (xs1 ++ extra)%list /\
          comparedOk f pre xs1 /\
          (tail = [] \/ (extra = [] /\ exists v post, tail = v :: post /\ isUnbounded v = false))
    | LoopReturn (Return (path, Some err)) =>
        exists pre v post xs1 a extra keyPath,
          rest = (pre ++ v :: post)%list /\ remaining = (xs1 ++ a :: extra)%list /\
          comparedOk f pre xs1 /\ isUnbounded v = false /\
          f v a = Return (keyPath, Some err) /\
          path = (keyPath ++ [SegInt (Z.of_nat (List.length done + List.length pre))])%list
    | LoopReturn _ => True
    end.
Proof.
  induction rest as [| v rest IH]; intros done remaining.
  - simpl. exists [], [], [], remaining. repeat split; auto. constructor.
  - destruct (isUnbounded v) eqn:Ev.
    + simpl. rewrite Ev. exists [], v, rest, [], remaining.
      repeat split; auto. constructor.
    + destruct remaining as [| a remaining].
      * simpl. rewrite Ev, app_nil_r, Nat.eqb_refl.
        exists [], (v :: rest), [], []. repeat split; auto; [constructor |].
        right. split; [reflexivity |]. exists v, rest. auto.
      * rewrite arrayLoop_step by exact Ev.
        destruct (f v a) as [[keyPath [err |]] |] eqn:Ef; [| | exact I].
        { exists [], v, rest, [], a, remaining, keyPath.
          simpl. rewrite Nat.add_0_r. repeat split; auto. constructor. }
        specialize (IH (done ++ [a])%list remaining).
        destruct (arrayLoop f ((done ++ [a]) ++ remaining)
                            (List.length (done ++ [a])) rest)
          as [[|] | [[path [err |]] |]]; try exact I.
        -- destruct IH as [pre [u [post [xs1 [extra [-> [-> [Hc Hu]]]]]]]].
           exists (v :: pre), u, post, (a :: xs1), extra.
           repeat split; auto. constructor; [| exact Hc]. rewrite Ef. auto.
        -- destruct IH as [pre [tail [xs1 [extra [-> [-> [Hc Ht]]]]]]].
           exists (v :: pre), tail, (a :: xs1), extra.
           repeat split; auto. constructor; [| exact Hc]. rewrite Ef. auto.
        -- destruct IH as [pre [v' [post [xs1 [a' [extra [kp
                             [-> [-> [Hc [Hv [Hf ->]]]]]]]]]]]].
           exists (v :: pre), v', post, (a :: xs1), a', extra, kp.
           repeat split; auto.
           ++ constructor; [| exact Hc]. rewrite Ef. auto.
           ++ rewrite length_app. simpl. do 3 f_equal. lia.
Qed.

Lemma deepMatchArray_succeeded_cases (m : JSONMatcher.t) (expected actual : list Value) :
  succeeded (deepMatchArray m expected actual) = true ->
  comparedOk (deepMatch m) expected actual \/
  (exists pre u post xs1 extra,
      expected = (pre ++ u :: post)%list /\ actual = (xs1 ++ extra)%list /\
      comparedOk (deepMatch m) pre xs1 /\ isUnbounded u = true).
Proof.
  unfold deepMatchArray, deepMatchArrayOver.
  pose proof (arrayLoop_exit (deepMatch m) expected [] actual) as Hexit.
  simpl in Hexit.
  destruct (arrayLoop (deepMatch m) actual 0 expected)
    as [[|] | r] eqn:El.
  - intros _. right. exact Hexit.
  - simpl. destruct (Nat.eqb (List.length expected) (List.length actual)) eqn:En;
      [| discriminate].
    intros _. left. apply Nat.eqb_eq in En.
    destruct Hexit as [pre [tail [xs1 [extra [-> [-> [Hc Ht]]]]]]].
    pose proof (comparedOk_length _ _ _ Hc) as Hlen.
    rewrite !length_app in En.
    destruct Ht as [-> | [-> [v [post [-> _]]]]].
    + simpl in En. destruct extra; [| simpl in En; lia].
      rewrite !app_nil_r. exact Hc.
    + simpl in En. lia.
  - intro Hs. rewrite (arrayLoop_return_failed _ _ _ _ _ El) in Hs. discriminate Hs.
Qed.

Lemma deepMatchArray_all_compared (m : JSONMatcher.t) (expected actual : list Value) :
  comparedOk (deepMatch m) expected actual ->
  deepMatchArray m expected actual = Return ([], None).
Proof.
  intro Hc. unfold deepMatchArray, deepMatchArrayOver.
  rewrite <- (app_nil_r expected) at 1. rewrite <- (app_nil_r actual) at 1.
  rewrite deepMatchArray_loop by exact Hc. simpl.
  rewrite (comparedOk_length _ _ _ Hc), Nat.eqb_refl. reflexivity.
Qed.

(** X11: the comparison of two arrays succeeds exactly when all the pairs
    match with no unbounded pattern among the expected elements and
    the lengths are equal, or a prefix of [expected] matches, pair by
    pair, a prefix of [actual] and is followed by the unbounded pattern. *)
Theorem deepMatchArray_success_iff (m : JSONMatcher.t) (expected actual : list Value) :
  succeeded (deepMatchArray m expected actual) = true <->
  comparedOk (deepMatch m) expected actual \/
  (exists pre u post xs1 extra,
      expected = (pre ++ u :: post)%list /\ actual = (xs1 ++ extra)%list /\
      comparedOk (deepMatch m) pre xs1 /\ isUnbounded u = true).
Proof.
  split; [apply deepMatchArray_succeeded_cases |].
  intros [Hc | [pre [u [post [xs1 [extra [-> [-> [Hc Hu]]]]]]]]].
  - rewrite deepMatchArray_all_compared by exact Hc. reflexivity.
  - rewrite deepMatchArray_unbounded by assumption. reflexivity.
Qed.

(** X12: when the comparison of two arrays fails with a path that is not
    empty, the last segment of the path is the index of the first pair
    that does not match: every pair before it matches, no expected
    element up to it is the unbounded pattern, and the rest of the path
    and the error are those of that pair.  With an empty path the error is
    "arrays sizes are not equal". *)
Theorem deepMatchArray_first_mismatch (m : JSONMatcher.t)
        (expected actual : list Value) (path : Path) (err : error) :
  deepMatchArray m expected actual = Return (path, Some err) ->
  (path = [] /\ err = errArraysLenNotEqual) \/
  (exists pre v post xs1 a extra keyPath,
      expected = (pre ++ v :: post)%list /\ actual = (xs1 ++ a :: extra)%list /\
      comparedOk (deepMatch m) pre xs1 /\ isUnbounded v = false /\
      deepMatch m v a = Return (keyPath, Some err) /\
      path = (keyPath ++ [SegInt (Z.of_nat (List.length pre))])%list).
Proof.
  unfold deepMatchArray, deepMatchArrayOver.
  pose proof (arrayLoop_exit (deepMatch m) expected [] actual) as Hexit.
  simpl in Hexit.
  destruct (arrayLoop (deepMatch m) actual 0 expected) as [unbounded | r].
  - destruct (negb unbounded && _); [| discriminate].
    intro H. injection H as <- <-. auto.
  - intros ->. right. exact Hexit.
Qed.

Lemma deepMatchArray_first_mismatch_witness :
  ([SegInt 1] = [] /\ errValuesNotEqual = errArraysLenNotEqual) \/
  (exists pre v post xs1 a extra keyPath,
      [num 1; num 2; num 3] = (pre ++ v :: post)%list /\
      [num 1; num 3; num 2] = (xs1 ++ a :: extra)%list /\
      comparedOk (deepMatch testMatcher) pre xs1 /\ isUnbounded v = false /\
      deepMatch testMatcher v a = Return (keyPath, Some errValuesNotEqual) /\
      [SegInt 1] = (keyPath ++ [SegInt (Z.of_nat (List.length pre))])%list).
Proof.
  exact (deepMatchArray_first_mismatch testMatcher
           [num 1; num 2; num 3] [num 1; num 3; num 2]
           [SegInt 1] errValuesNotEqual eq_refl).
Defined.

(** ** Arrays: what lies behind the unbounded pattern *)







(** ** The path leads to the mismatch *)

Lemma decoded_element (xs : list Value) (x : Value) :
  decoded (VSlice xs) = true -> In x xs -> decoded x = true.
Proof. simpl. rewrite forallb_forall. auto. Qed.

Lemma decoded_entry (kvs : list (string * Value)) (k : string) (x : Value) :
  decoded (VMap kvs) = true -> In (k, x) kvs ->
  decoded x = true /\ mapIndex k kvs = Some x.
Proof.
  simpl. rewrite andb_true_iff, forallb_forall. intros [Hd Hall] Hin. split.
  - exact (Hall (k, x) Hin).
  - apply mapIndex_distinct; assumption.
Qed.

Lemma follow_app (outer inner : list Segment) (v w : Value) :
  follow outer v = Some w -> follow (outer ++ inner) v = follow inner w.
Proof.
  revert v. induction outer as [| seg outer IH]; intros v; simpl.
  - intro H. injection H as ->. reflexivity.
  - destruct seg as [i | k]; destruct v; try discriminate.
    + destruct (nth_error xs (Z.to_nat i)); [apply IH | discriminate].
    + destruct (mapIndex k kvs); [apply IH | discriminate].
Qed.

(** X14: the path of a failure leads to the mismatch.  When the expected
    document is a decoded one, following the returned path from its
    outermost segment, in the expected and in the actual document, reaches
    two values whose own comparison fails with the same error and an empty
    path. *)
Theorem deepMatch_path_leads_to_mismatch (m : JSONMatcher.t) (expected : Value) :
  decoded expected = true ->
  forall actual path err,
    deepMatch m expected actual = Return (path, Some err) ->
    exists expected' actual',
      follow (rev path) expected = Some expected' /\
      follow (rev path) actual = Some actual' /\
      deepMatch m expected' actual' = Return ([], Some err).
Proof.
  induction expected as [| b | f | s | es IH | es IH] using Value_tree_ind;
    intros Hd actual path err Hm.
  1-4: assert (path = []) as ->;
       [ rewrite deepMatch_unfold in Hm;
         destruct (negb (GoType_eqb _ _) && negb _);
         [ injection Hm as <- _; reflexivity
         | simpl in Hm; unfold matchValue in Hm;
           destruct (ValueMatcher.CanMatch _ _);
           [ injection Hm as <- _; reflexivity
           | destruct (ifaceEq _ _) as [[|] |]; try discriminate Hm;
             injection Hm as <- _; reflexivity ] ]
       | eexists; eexists; simpl; repeat split; exact Hm ].
  - pose proof Hm as Hm0. rewrite deepMatch_unfold in Hm.
    destruct (negb (GoType_eqb _ _) && negb _).
    { injection Hm as <- <-. eexists; eexists; simpl; repeat split. exact Hm0. }
    simpl in Hm. destruct actual; try discriminate Hm.
    unfold deepMatchArray, deepMatchArrayOver in Hm.
    destruct (arrayLoop (deepMatch m) xs 0 es) as [unbounded | r] eqn:El.
    { destruct (negb unbounded && _); [| discriminate Hm].
      injection Hm as <- <-. eexists; eexists; simpl; repeat split. exact Hm0. }
    subst r.
    destruct (arrayLoop_return_shape _ _ _ _ _ _ El)
      as [j [v [a [kp [Hv [Ha [Hf ->]]]]]]].
    simpl in Ha.
    rewrite Forall_forall in IH.
    destruct (IH v (nth_error_In _ _ Hv)
                (decoded_element es v Hd (nth_error_In _ _ Hv)) a kp err Hf)
      as [e' [a' [He' [Ha' Hres]]]].
    exists e', a'. rewrite rev_app_distr. simpl.
    rewrite Nat2Z.id, Hv, Ha. auto.
  - pose proof Hm as Hm0. rewrite deepMatch_unfold in Hm.
    destruct (negb (GoType_eqb _ _) && negb _).
    { injection Hm as <- <-. eexists; eexists; simpl; repeat split. exact Hm0. }
    simpl in Hm. destruct actual; try discriminate Hm.
    unfold deepMatchMap, deepMatchMapOver in Hm.
    destruct (mapLoop (deepMatch m) kvs false es) as [unbounded | r] eqn:El.
    { destruct (negb unbounded && _); [| discriminate Hm].
      injection Hm as <- <-. eexists; eexists; simpl; repeat split. exact Hm0. }
    subst r.
    destruct (mapLoop_return_shape _ _ _ _ _ _ El)
      as [[-> _] | [k [v1 [v2 [kp [Hin [Hidx [Hf ->]]]]]]]].
    { eexists; eexists; simpl; repeat split. exact Hm0. }
    rewrite Forall_forall in IH.
    destruct (decoded_entry es k v1 Hd Hin) as [Hdv Hidx1].
    destruct (IH (k, v1) Hin Hdv v2 kp err Hf) as [e' [a' [He' [Ha' Hres]]]].
    exists e', a'. rewrite rev_app_distr. simpl.
    rewrite Hidx1, Hidx. auto.
Qed.

Lemma deepMatch_path_leads_to_mismatch_witness :
  exists expected' actual',
    follow (rev [SegString "type"; SegInt 1; SegString "phones"]) (person "work")
    = Some expected' /\
    follow (rev [SegString "type"; SegInt 1; SegString "phones"]) (person "mobile")
    = Some actual' /\
    deepMatch testMatcher expected' actual' = Return ([], Some errValuesNotEqual).
Proof.
  exact (deepMatch_path_leads_to_mismatch testMatcher (person "work") eq_refl
           (person "mobile") [SegString "type"; SegInt 1; SegString "phones"]
           errValuesNotEqual eq_refl).
Defined.

(** ** The errors of the engine *)

Lemma default_match_error (uuidParse emailMatchString : string -> bool)
      (p v : Value) (err : error) :
  ChainMatcher.CanMatch (defaultMatchers uuidParse emailMatchString) p = true ->
  snd (ChainMatcher.Match (defaultMatchers uuidParse emailMatchString) p v) = Some err ->
  In err defaultMatcherErrors.
Proof.
  intros Hc Hm. apply default_CanMatch in Hc. destruct Hc as [s [-> Hin]].
  unfold defaultPatterns in Hin. simpl in Hin.
  repeat (destruct Hin as [<- | Hin];
          [ simpl in Hm; unfold UUIDMatcher.Match, EmailMatcher.Match in Hm;
            destruct v; simpl in Hm;
            try (match type of Hm with context [if ?c then _ else _] => destruct c end;
                 simpl in Hm);
            try discriminate Hm; injection Hm as <-; simpl; auto 10 |]).
  contradiction.
Qed.

(** X15: every error that [deepMatch] returns is "types are not equal",
    "values are not equal", "arrays sizes are not equal", "unexpected
    key", an [expected key "<key>"] error, or an error that the configured
    matcher's [Match] returned on a pattern it recognizes; with the default
    matcher the last case is one of the six errors of its matchers. *)
Theorem deepMatch_error_taxonomy (m : JSONMatcher.t)
        (uuidParse emailMatchString : string -> bool)
        (expected actual : Value) (path : Path) (err : error) :
  (deepMatch m expected actual = Return (path, Some err) ->
   In err engineErrors \/
   (exists k, err = errExpectedKey k) \/
   (exists p v, ValueMatcher.CanMatch (valueMatcher m) p = true /\
                snd (ValueMatcher.Match (valueMatcher m) p v) = Some err)) /\
  (deepMatch (NewDefaultJSONMatcher uuidParse emailMatchString) expected actual
   = Return (path, Some err) ->
   In err engineErrors \/ (exists k, err = errExpectedKey k) \/
   In err defaultMatcherErrors).
Proof.
  split; intro H.
  - refine (deepMatch_error_origin m
              (fun e => In e engineErrors \/ (exists k, e = errExpectedKey k) \/
                        (exists p v, ValueMatcher.CanMatch (valueMatcher m) p = true /\
                                     snd (ValueMatcher.Match (valueMatcher m) p v) = Some e))
              _ _ _ _ _ _ expected actual path err H);
      try (left; simpl; auto; fail).
    + intro k. right; left. exists k. reflexivity.
    + intros p v e Hc Hm. right; right. exists p, v. auto.
  - refine (deepMatch_error_origin (NewDefaultJSONMatcher uuidParse emailMatchString)
              (fun e => In e engineErrors \/ (exists k, e = errExpectedKey k) \/
                        In e defaultMatcherErrors)
              _ _ _ _ _ _ expected actual path err H);
      try (left; simpl; auto; fail).
    + intro k. right; left. exists k. reflexivity.
    + intros p v e Hc Hm. right; right.
      exact (default_match_error uuidParse emailMatchString p v e Hc Hm).
Qed.

Lemma deepMatch_error_taxonomy_witness :
  In errValuesNotEqual engineErrors \/
  (exists k, errValuesNotEqual = errExpectedKey k) \/
  (exists p v, ValueMatcher.CanMatch (valueMatcher testMatcher) p = true /\
               snd (ValueMatcher.Match (valueMatcher testMatcher) p v)
               = Some errValuesNotEqual).
Proof.
  exact (proj1 (deepMatch_error_taxonomy testMatcher (fun _ => false) (fun _ => false)
                  (num 100) (num 200) [] errValuesNotEqual) eq_refl).
Defined.

(** ** The rendering of a path *)

Lemma string_app_assoc (a b c : string) : (a ++ b) ++ c = a ++ (b ++ c).
Proof. induction a as [| x a IH]; simpl; [reflexivity | rewrite IH; reflexivity]. Qed.

(** X16: the rendering of a path does not determine the path.  A key
    that contains a '.' renders as two nested keys do, and an outermost key
    that is the empty string leaves no trace in the rendering. *)
Theorem pathToString_ambiguous (outer inner : string) (path : Path) :
  outer <> "" ->
  pathToString [SegString inner; SegString outer]
  = pathToString [SegString (outer ++ "." ++ inner)] /\
  pathToString (path ++ [SegString ""])%list = pathToString path.
Proof.
  intro Hne. split.
  - unfold pathToString. simpl.
    destruct outer as [| c outer]; [contradiction |].
    simpl. rewrite string_app_assoc. reflexivity.
  - rewrite pathToString_outermost. reflexivity.
Qed.

Lemma pathToString_ambiguous_witness :
  pathToString [SegString "b"; SegString "a"] = pathToString [SegString "a.b"].
Proof.
  exact (proj1 (pathToString_ambiguous "a" "b" [] ltac:(discriminate))).
Defined.

(** ** A more permissive matcher *)

Lemma comparedOk_mono (f g : Value -> Value -> MatchResult) (pre xs1 : list Value) :
  Forall (fun v => forall a, succeeded (f v a) = true -> succeeded (g v a) = true) pre ->
  comparedOk f pre xs1 -> comparedOk g pre xs1.
Proof.
  intros Hall Hc. induction Hc as [| v a pre xs1 [Hv Hok] _ IH]; [constructor |].
  inversion Hall as [| ? ? Hhead Htail]; subst.
  constructor; [split; [exact Hv | exact (Hhead a Hok)] | exact (IH Htail)].
Qed.

Lemma entryOk_mono (f g : Value -> Value -> MatchResult)
      (actual expected : list (string * Value)) :
  Forall (fun kv => forall a, succeeded (f (snd kv) a) = true ->
                              succeeded (g (snd kv) a) = true) expected ->
  Forall (entryOk f actual) expected -> Forall (entryOk g actual) expected.
Proof.
  intros Hall Hok. induction Hok as [| kv expected Hkv _ IH]; [constructor |].
  inversion Hall as [| ? ? Hhead Htail]; subst.
  constructor; [| exact (IH Htail)].
  destruct Hkv as [Hu | [v2 [Hidx Hs]]]; [left; exact Hu |].
  right. exists v2. split; [exact Hidx | exact (Hhead v2 Hs)].
Qed.

(** X17: a matcher that recognizes the same patterns and accepts every
    value the configured one accepts never turns a success into a failure:
    every pair of documents that matches with the one matches with the
    other. *)
Theorem deepMatch_monotone (m m' : JSONMatcher.t) :
  (forall p, ValueMatcher.CanMatch (valueMatcher m') p
             = ValueMatcher.CanMatch (valueMatcher m) p) ->
  (forall p v, ValueMatcher.CanMatch (valueMatcher m) p = true ->
               snd (ValueMatcher.Match (valueMatcher m) p v) = None ->
               snd (ValueMatcher.Match (valueMatcher m') p v) = None) ->
  forall expected actual,
    succeeded (deepMatch m expected actual) = true ->
    succeeded (deepMatch m' expected actual) = true.
Proof.
  intros Hcan Hacc expected.
  induction expected as [| b | f | s | es IH | es IH] using Value_tree_ind;
    intro actual; rewrite !deepMatch_unfold, Hcan;
    destruct (negb (GoType_eqb _ _) && negb _); try (intro H; exact H);
    simpl dispatch.
  1-4: unfold matchValue; rewrite Hcan;
       destruct (ValueMatcher.CanMatch (valueMatcher m) _) eqn:Ec;
       [ destruct (snd (ValueMatcher.Match (valueMatcher m) _ actual)) eqn:Em;
         [ discriminate | rewrite (Hacc _ _ Ec Em); reflexivity ]
       | intro H; exact H ].
  - destruct actual; try (intro H; exact H).
    intro Hs. apply deepMatchArray_succeeded_cases in Hs.
    destruct Hs as [Hc | [pre [u [post [xs1 [extra [-> [-> [Hc Hu]]]]]]]]].
    + rewrite deepMatchArray_all_compared; [reflexivity |].
      exact (comparedOk_mono _ _ _ _ IH Hc).
    + apply Forall_app in IH. destruct IH as [IHpre _].
      rewrite deepMatchArray_unbounded; [reflexivity | | exact Hu].
      exact (comparedOk_mono _ _ _ _ IHpre Hc).
  - destruct actual; try (intro H; exact H).
    rewrite !deepMatchMap_succeeded_iff.
    intros [Hall Hcount]. split; [| exact Hcount].
    exact (entryOk_mono _ _ _ _ IH Hall).
Qed.

Lemma deepMatch_monotone_witness :
  succeeded (deepMatch testMatcher (VSlice [VString patternWildcard; num 2])
               (VSlice [num 1; num 2])) = true.
Proof.
  apply (deepMatch_monotone (NewJSONMatcher (fixedMatcher (false, None))) testMatcher).
  - reflexivity.
  - reflexivity.
  - reflexivity.
Defined.
